(** * AmpliPi media-player entities

    A shallow embedding of [custom_components/amplipi/media_player.py]: the
    helpers [process_stream_names], [extract_source_id_from_name] and
    [build_url], and the three polling entities [AmpliPiSource],
    [AmpliPiZone] and [AmpliPiStream], followed by the properties of the
    integration's specification that they do or do not satisfy.

    Python objects are records, [None]-able attributes are [option]s, the
    entity [self] and the device behind the [pyamplipi] client are threaded
    through a state monad in which a raised exception keeps the mutations
    made before it, as an attribute assignment in Python does. *)

From Stdlib Require Import ZArith List String Ascii Bool Lia DecimalString.
From Stdlib Require DecimalZ.
From Stdlib Require Import Permutation.
From Stdlib Require Import Floats.PrimFloat.
From coqutil Require Import Datatypes.RecordSetters.
Import ListNotations.
Import TriangleBracketNotations.

Local Open Scope string_scope.
Local Open Scope Z_scope.

(** ** Python values and builtins *)

(** The exceptions the modelled code can meet; all are subclasses of
    [Exception].  [ClientError] stands for whatever the HTTP client raises
    on a failed request. *)
Inductive exn : Type :=
| IndexError
| ValueError
| TypeError
| AttributeError
| UnboundLocalError
| ClientError
| Exception (msg : string).

Inductive result (A : Type) : Type :=
| Ok (a : A)
| Raise (e : exn).
Arguments Ok {A} a.
Arguments Raise {A} e.

Module Py.

(** Strings are sequences of code points below 256. *)

(** [sub in s] for two [str]: substring test. *)
Fixpoint contains (sub s : string) : bool :=
  String.prefix sub s
  || match s with
     | EmptyString => false
     | String _ s' => contains sub s'
     end.

(** [str(n)] and [f"{n}"] for an [int]. *)
Definition str (n : Z) : string := NilZero.string_of_int (Z.to_int n).

(** [\d] of [re]: below code point 256 the decimal digits are 0..9. *)
Definition is_digit (c : ascii) : bool :=
  ((48 <=? nat_of_ascii c) && (nat_of_ascii c <=? 57))%nat.

Definition digit_value (c : ascii) : Z := Z.of_nat (nat_of_ascii c) - 48.

(** [re.findall(r'\d', s)]: the list of one-character matches. *)
Fixpoint findall_digit (s : string) : list string :=
  match s with
  | EmptyString => []
  | String c s' =>
      if is_digit c then String c EmptyString :: findall_digit s'
      else findall_digit s'
  end.

(** [''.join(l)]. *)
Definition join (l : list string) : string := String.concat "" l.

(** [s[0]]: a one-character string, [IndexError] on the empty string. *)
Definition first (s : string) : result string :=
  match s with
  | EmptyString => Raise IndexError
  | String c _ => Ok (String c EmptyString)
  end.

(** [s[:n]]. *)
Fixpoint take (n : nat) (s : string) : string :=
  match n, s with
  | S n', String c s' => String c (take n' s')
  | _, _ => EmptyString
  end.

(** [s.split(sep)] for a one-character separator. *)
Fixpoint split (sep : ascii) (s : string) : list string :=
  match s with
  | EmptyString => [EmptyString]
  | String c s' =>
      if Ascii.eqb c sep then EmptyString :: split sep s'
      else match split sep s' with
           | h :: t => String c h :: t
           | [] => [String c EmptyString]
           end
  end.

(** [l[i]] on a list. *)
Definition item {A} (l : list A) (i : nat) : result A :=
  match nth_error l i with
  | Some a => Ok a
  | None => Raise IndexError
  end.

(** Whitespace as [int] strips it (code points below 256). *)
Definition is_space (c : ascii) : bool :=
  let n := nat_of_ascii c in
  (((9 <=? n) && (n <=? 13)) || ((28 <=? n) && (n <=? 32))
   || (n =? 133) || (n =? 160))%nat.

Fixpoint lstrip (l : list ascii) : list ascii :=
  match l with
  | c :: l' => if is_space c then lstrip l' else l
  | [] => []
  end.

Definition strip (l : list ascii) : list ascii :=
  rev (lstrip (rev (lstrip l))).

(** Digits with single underscores between them. *)
Fixpoint int_digits (acc : Z) (after_digit : bool) (l : list ascii)
  : option Z :=
  match l with
  | [] => if after_digit then Some acc else None
  | c :: l' =>
      if is_digit c then int_digits (10 * acc + digit_value c) true l'
      else if Ascii.eqb c "_" && after_digit then int_digits acc false l'
      else None
  end.

(** [int(s)] for a [str]: surrounding whitespace, an optional sign, a
    decimal literal; [ValueError] otherwise. *)
Definition int (s : string) : result Z :=
  let body :=
    match strip (list_ascii_of_string s) with
    | c :: l' =>
        if Ascii.eqb c "-" then option_map Z.opp (int_digits 0 false l')
        else if Ascii.eqb c "+" then int_digits 0 false l'
        else int_digits 0 false (c :: l')
    | [] => None
    end in
  match body with
  | Some n => Ok n
  | None => Raise ValueError
  end.

(** [x == n] for an [Optional[int]] and an [int]. *)
Definition eq_opt_int (x : option Z) (n : Z) : bool :=
  match x with
  | Some a => a =? n
  | None => false
  end.

(** [x == y] on two [Optional[str]]. *)
Definition eq_opt_str (x y : option string) : bool :=
  match x, y with
  | Some a, Some b => String.eqb a b
  | None, None => true
  | _, _ => false
  end.

End Py.

(** ** The records of [pyamplipi.models] that the entities read *)

Module Stream.
Record t : Type := mk { id : Z; name : string; type : string }.
Definition set_name (s : t) (n : string) : t :=
  {| id := id s; name := n; type := type s |}.
End Stream.

Module SourceInfo.
Record t : Type := mk {
  name : option string;
  state : option string;
  artist : option string;
  track : option string;
  album : option string;
  station : option string;
  img_url : option string;
  supported_cmds : list string
}.
End SourceInfo.

Module Source.
Record t : Type := mk {
  id : Z;
  name : string;
  input : option string;
  info : option SourceInfo.t
}.
End Source.

Module Zone.
Record t : Type := mk {
  id : Z;
  name : string;
  source_id : option Z;
  mute : option bool;
  vol_f : option float;
  disabled : bool
}.
End Zone.

Module Group.
Record t : Type := mk {
  id : Z;
  name : string;
  source_id : option Z;
  zones : list Z;
  mute : option bool;
  vol_f : option float
}.
End Group.

Module Status.
Record t : Type := mk {
  sources : list Source.t;
  zones : list Zone.t;
  groups : list Group.t;
  streams : list Stream.t
}.
End Status.

(** [next(filter(p, l), None)]. *)
Definition next_filter {A} (p : A -> bool) (l : list A) : option A :=
  find p l.

(** ** Module-level helpers *)

Definition marker : string := "AmpliPi Stream".

(** [f"AmpliPi Stream {stream.id}: {stream.name}"]. *)
Definition processed_name (stream : Stream.t) : string :=
  "AmpliPi Stream " ++ Py.str (Stream.id stream) ++ ": " ++ Stream.name stream.

Definition process_stream_name (stream : Stream.t) : Stream.t :=
  if negb (Py.contains marker (Stream.name stream))
  then Stream.set_name stream (processed_name stream)
  else stream.

(** The loop renames each record in place and the list is returned. *)
Definition process_stream_names (streams : list Stream.t) : list Stream.t :=
  map process_stream_name streams.

(** [int(''.join(re.findall(r'\d', source))[0]) - 1]. *)
Definition extract_source_id_from_name (source : string) : result Z :=
  match Py.first (Py.join (Py.findall_digit source)) with
  | Raise e => Raise e
  | Ok c =>
      match Py.int c with
      | Raise e => Raise e
      | Ok n => Ok (n - 1)
      end
  end.

(** The functions of installed packages that the module calls. *)
Class Libraries : Type := {
  (** truth value of [validators.url(s)] *)
  validators_url : string -> bool
}.

Section BuildUrl.
Context `{Libraries}.

Definition build_url (api_base_path : string) (img_url : option string)
  : option string :=
  match img_url with
  | None => None
  | Some img =>
      if validators_url img then Some img
      else
        let new_url := api_base_path ++ "/" ++ img in
        if validators_url new_url then Some new_url else None
  end.
End BuildUrl.

(** ** The device, the log and the effect monad *)

(** The calls on the [pyamplipi] client that the modelled methods make. *)
Inductive request : Type :=
| get_status
| get_sources
| set_source (source_id : Z) (input : string).

Inductive level : Type := INFO | WARNING | ERROR.

(** What lies outside the entity: the device, which answers the request
    that follows [n] earlier ones with a value or an exception, the
    requests made so far and the records logged so far, newest first. *)
Module World.
Record t : Type := mk {
  status_reply : nat -> result Status.t;
  sources_reply : nat -> result (list (option Source.t));
  set_source_reply : nat -> result unit;
  requests : list request;
  log : list (level * string)
}.
End World.

(** A method of an entity of type [Self]: it reads and assigns attributes
    of [self], talks to the device, and returns or raises.  Assignments
    made before an exception stay. *)
Definition M (Self A : Type) : Type :=
  Self * World.t -> result A * (Self * World.t).

Section Effects.
Context {Self : Type}.

Definition ret {A} (a : A) : M Self A := fun s => (Ok a, s).

Definition bind {A B} (c : M Self A) (k : A -> M Self B) : M Self B :=
  fun s =>
    match c s with
    | (Ok a, s') => k a s'
    | (Raise e, s') => (Raise e, s')
    end.

Definition raise {A} (e : exn) : M Self A := fun s => (Raise e, s).

Definition lift {A} (r : result A) : M Self A := fun s => (r, s).

(** [try: c  except Exception: ...]: the outcome of [c] handed to the
    continuation. *)
Definition try {A} (c : M Self A) : M Self (result A) :=
  fun s => let (r, s') := c s in (Ok r, s').

Definition self : M Self Self := fun s => (Ok (fst s), s).

Definition assign (f : Self -> Self) : M Self unit :=
  fun s => (Ok tt, (f (fst s), snd s)).

(** [o.attr] on an object that may be [None]. *)
Definition attr {A} (o : option A) : M Self A :=
  match o with
  | Some a => ret a
  | None => raise AttributeError
  end.

(** [_LOGGER.info], [.warning] and [.error]; [msg] is the literal text of
    the logged format string. *)
Definition logger (lvl : level) (msg : string) : M Self unit :=
  fun s => (Ok tt, (fst s, (snd s) <| World.log ::= cons (lvl, msg) |>)).

Definition call {A} (rq : request) (reply : World.t -> nat -> result A)
  : M Self A :=
  fun s =>
    let w := snd s in
    (reply w (List.length (World.requests w)),
     (fst s, w <| World.requests ::= cons rq |>)).

Definition await_get_status : M Self Status.t :=
  call get_status World.status_reply.

Definition await_get_sources : M Self (list (option Source.t)) :=
  call get_sources World.sources_reply.

Definition await_set_source (source_id : Z) (input : string)
  : M Self unit :=
  call (set_source source_id input) World.set_source_reply.
End Effects.

Notation "x <- c ;; k" := (bind c (fun x => k))
  (at level 61, c at next level, right associativity).
Notation "c ;; k" := (bind c (fun _ => k))
  (at level 61, right associativity).

(** The values of [homeassistant.const] that [state] returns. *)
Inductive player_state : Type :=
| STATE_UNKNOWN
| STATE_IDLE
| STATE_PLAYING
| STATE_PAUSED.

(** The [elif] chain shared by the three [state] properties.  The
    parenthesised ['paused'] is a [str], so [in] is the substring test.
    The source and zone versions repeat the ['stopped'] branch, with the
    same result. *)
Definition state_of_info_state (st : string) : player_state :=
  if Py.contains st "paused" then STATE_PAUSED
  else if Py.contains st "playing" then STATE_PLAYING
  else if Py.contains st "stopped" then STATE_IDLE
  else STATE_IDLE.

(** The [_attr_*] attributes that [sync_state] assigns. *)
Module Media.
Record t : Type := mk {
  media_album_artist : option string;
  media_album_name : option string;
  media_title : option string;
  media_track : option string;
  app_name : option string;
  media_image_url : option string;
  media_channel : option string
}.
Definition unset : t := mk None None None None None None None.
End Media.

(** [if 'stream=' in input and 'stream=local' not in input:
     stream_id = int(input.split('=')[1])], shared by the source and the
    zone [sync_state]; [None] when the condition is false. *)
Definition stream_id_of_input {Self} (input : option string)
  : M Self (option Z) :=
  match input with
  | None => raise TypeError
  | Some input =>
      if Py.contains "stream=" input
         && negb (Py.contains "stream=local" input)
      then
        part <- lift (Py.item (Py.split "=" input) 1) ;;
        stream_id <- lift (Py.int part) ;;
        ret (Some stream_id)
      else ret None
  end.

(** ** Supported features *)

(** The members of [MediaPlayerEntityFeature] that the module names: an
    [IntFlag], so integers combined with bitwise or. *)
Class Features : Type := {
  SELECT_SOURCE : Z;
  PLAY_MEDIA : Z;
  VOLUME_MUTE : Z;
  VOLUME_SET : Z;
  GROUPING : Z;
  VOLUME_STEP : Z;
  BROWSE_MEDIA : Z;
  TURN_OFF : Z;
  PLAY : Z;
  PAUSE : Z;
  STOP : Z;
  NEXT_TRACK : Z;
  PREVIOUS_TRACK : Z
}.

Section SupportedFeatures.
Context `{Features}.

Definition SUPPORT_AMPLIPI_DAC : Z :=
  Z.lor SELECT_SOURCE
    (Z.lor PLAY_MEDIA
       (Z.lor VOLUME_MUTE
          (Z.lor VOLUME_SET
             (Z.lor GROUPING
                (Z.lor VOLUME_STEP (Z.lor BROWSE_MEDIA TURN_OFF)))))).

Definition SOURCE_SUPPORT_LOOKUP_DICT : list (string * Z) :=
  [("play", PLAY); ("pause", PAUSE); ("stop", STOP); ("next", NEXT_TRACK);
   ("prev", PREVIOUS_TRACK); ("toggle", TURN_OFF)].

Definition ZONE_SUPPORT_LOOKUP_DICT : list (string * Z) :=
  [("play", PLAY); ("pause", PAUSE); ("stop", STOP); ("next", NEXT_TRACK);
   ("prev", PREVIOUS_TRACK); ("toggle", TURN_OFF); ("join", GROUPING)].

Definition STREAM_SUPPORT_LOOKUP_DICT : list (string * Z) :=
  [("play", PLAY); ("pause", PAUSE); ("stop", STOP); ("next", NEXT_TRACK);
   ("prev", PREVIOUS_TRACK); ("toggle", TURN_OFF)].

(** [reduce(operator.or_, l)], without an initial value. *)
Definition reduce_or (l : list Z) : result Z :=
  match l with
  | [] => Raise TypeError
  | x :: rest => Ok (fold_left Z.lor rest x)
  end.

(** [[d.get(key) for key in (d.keys() & supported_cmds)]]: the values of
    the keys that are among the commands, here in the order of the
    dictionary (the set's own order does not change the or of the values). *)
Definition looked_up (d : list (string * Z)) (supported_cmds : list string)
  : list Z :=
  map snd (filter (fun kv => existsb (String.eqb (fst kv)) supported_cmds) d).

(** The body shared by the three [supported_features] properties, for the
    lookup dictionary [d] and the source record [current] that the entity
    reads. *)
Definition supported_features_of (d : list (string * Z))
    (current : option Source.t) : result Z :=
  match current with
  | None => Ok SUPPORT_AMPLIPI_DAC
  | Some src =>
      match Source.info src with
      | None => Ok SUPPORT_AMPLIPI_DAC
      | Some info =>
          if (0 <? List.length (SourceInfo.supported_cmds info))%nat
          then
            match reduce_or (looked_up d (SourceInfo.supported_cmds info)) with
            | Ok flags => Ok (Z.lor SUPPORT_AMPLIPI_DAC flags)
            | Raise e => Raise e
            end
          else Ok SUPPORT_AMPLIPI_DAC
      end
  end.
End SupportedFeatures.

(** The loop of the zone and stream [source_list] properties: one label
    per cached source, numbered from 1. *)
Definition numbered_sources (sources : list Source.t) : list string :=
  fst (fold_left
         (fun (acc : list string * Z) (_ : Source.t) =>
            let (source_list, source_num) := acc in
            (List.app source_list [String.append "Source " (Py.str source_num)],
             source_num + 1))
         sources ([], 1)).

(** ** [AmpliPiSource] *)

Module AmpliPiSource.

(** The attributes that the methods below read or assign. *)
Record t : Type := mk {
  _streams : list Stream.t;
  _id : Z;
  _current_stream : option Stream.t;
  _image_base_path : string;
  _zones : list Zone.t;
  _groups : list Group.t;
  _name : string;
  _source : option Source.t;
  _last_update_successful : bool;
  _attr : Media.t
}.

Definition __init__ (source : Source.t) (streams : list Stream.t)
    (image_base_path : string) : t :=
  {| _streams := process_stream_names streams;
     _id := Source.id source;
     _current_stream := None;
     _image_base_path := image_base_path;
     _zones := [];
     _groups := [];
     _name := "Source " ++ Py.str (Source.id source + 1);
     _source := Some source;
     _last_update_successful := false;
     _attr := Media.unset |}.

(** Pulls the stream id out of a stream name. *)
Definition process_stream_id (stream : string) : M t (option string) :=
  let processed := Py.join (Py.findall_digit stream) in
  c <- lift (Py.first processed) ;;
  n <- lift (Py.int c) ;;
  if n =? 1 then ret (Some (Py.take 4 processed))
  else if n =? 9 then ret (Some (Py.take 3 processed))
  else
    logger ERROR
      "AmpliPiSource.process_stream_id() could not determine stream ID" ;;
    ret None.

Definition state (s : t) : player_state :=
  if negb (_last_update_successful s) then STATE_UNKNOWN
  else
    match _source s with
    | None => STATE_IDLE
    | Some src =>
        match Source.info src with
        | None => STATE_IDLE
        | Some info =>
            match SourceInfo.state info with
            | None => STATE_IDLE
            | Some st => state_of_info_state st
            end
        end
    end.

Definition source_list (s : t) : list string :=
  "None"
  :: map Stream.name
       (filter (fun stream =>
                  (Stream.id stream >=? 1000)
                  || (Stream.id stream - 996 =? _id s))
               (_streams s)).

Section Methods.
Context `{Libraries}.

Definition sync_state (state : Source.t) (streams : list Stream.t)
    (zones : list Zone.t) (groups : list Group.t) : M t unit :=
  assign (fun s => s <| _source := Some state |>
                     <| _streams := process_stream_names streams |>
                     <| _current_stream := None |>) ;;
  found <- stream_id_of_input (Source.input state) ;;
  match found with
  | Some stream_id =>
      assign (fun s =>
                s <| _current_stream :=
                       next_filter (fun z => Stream.id z =? stream_id)
                                   (_streams s) |>)
  | None => ret tt
  end ;;
  assign (fun s => s <| _zones := zones |>
                     <| _groups := groups |>
                     <| _last_update_successful := true |>
                     <| _name := Source.name state |>) ;;
  match Source.info state with
  | Some info =>
      let track_name :=
        match SourceInfo.track info with
        | None => SourceInfo.name info
        | Some t => Some t
        end in
      assign (fun s =>
        s <| _attr :=
          {| Media.media_album_artist := SourceInfo.artist info;
             Media.media_album_name := SourceInfo.album info;
             Media.media_title := track_name;
             Media.media_track := SourceInfo.track info;
             Media.app_name :=
               option_map Stream.type (_current_stream s);
             Media.media_image_url :=
               build_url (_image_base_path s) (SourceInfo.img_url info);
             Media.media_channel := SourceInfo.station info |} |>)
  | None => assign (fun s => s <| _attr := Media.unset |>)
  end.

(** Retrieve latest state. *)
Definition async_update : M t unit :=
  s <- self ;;
  src <- attr (_source s) ;;
  logger INFO "Retrieving state for source" ;;
  fetched <- try (state <- await_get_status ;;
                  ret (state,
                       next_filter
                         (fun z => Source.id z =? Source.id src)
                         (Status.sources state))) ;;
  match fetched with
  | Raise _ =>
      assign (fun s => s <| _last_update_successful := false |>) ;;
      logger ERROR "Could not update source"
  | Ok (state, None) =>
      assign (fun s => s <| _last_update_successful := false |>)
  | Ok (state, Some source) =>
      let groups :=
        filter (fun z => Py.eq_opt_int (Group.source_id z) (Source.id src))
               (Status.groups state) in
      let zones :=
        filter (fun z => Py.eq_opt_int (Zone.source_id z) (Source.id src))
               (Status.zones state) in
      sync_state source (Status.streams state) zones groups
  end.

Definition _update_source (input : string) : M t unit :=
  s <- self ;;
  src <- attr (_source s) ;;
  await_set_source (Source.id src) input ;;
  async_update.

(** The search [next(filter(lambda z: ..., self._streams), None)]: both
    names are processed again at every element. *)
Fixpoint find_stream (source : string) (streams : list Stream.t)
  : M t (option Stream.t) :=
  match streams with
  | [] => ret None
  | z :: rest =>
      a <- process_stream_id (Stream.name z) ;;
      b <- process_stream_id source ;;
      if Py.eq_opt_str a b then ret (Some z)
      else find_stream source rest
  end.

Definition async_select_source (source : string) : M t unit :=
  s <- self ;;
  if match _source s with
     | Some src => String.eqb (Source.name src) source
     | None => false
     end
  then _update_source "local"
  else if String.eqb source "None" then _update_source "None"
  else
    stream <- find_stream source (_streams s) ;;
    match stream with
    | None =>
        logger WARNING
          "Select Source called but a match could not be found in the stream cache"
    | Some stream =>
        _update_source ("stream=" ++ Py.str (Stream.id stream))
    end.
End Methods.

(** The [source] property. *)
Definition source (s : t) : string :=
  match _source s with
  | Some src =>
      if Py.eq_opt_str (Source.input src) (Some "local")
      then Source.name src
      else
        match _current_stream s with
        | Some stream => Stream.name stream
        | None => "None"
        end
  | None => "None"
  end.

Definition supported_features `{Features} (s : t) : result Z :=
  supported_features_of SOURCE_SUPPORT_LOOKUP_DICT (_source s).

Section Commands.
Context `{Libraries}.

Definition async_turn_off : M t unit :=
  s <- self ;;
  match _source s with
  | Some _ =>
      logger WARNING ("disconnecting stream from source " ++ _name s) ;;
      _update_source "None"
  | None => ret tt
  end.
End Commands.

End AmpliPiSource.

(** The value of [_extra_attributes]: the empty list of [__init__] or one
    of the one-key dictionaries assigned later. *)
Inductive extra_attributes : Type :=
| no_attributes
| amplipi_zones (zone_ids : list Z)
| amplipi_zone_id (zone_id : Z)
| amplipi_source_id (source_id : option Z).

(** ** [AmpliPiZone]: a zone or a group *)

Module AmpliPiZone.

(** [_current_stream] is first assigned in [sync_state]; [None] stands
    for the attribute not being there yet. *)
Record t : Type := mk {
  _current_source : option Source.t;
  _sources : list Source.t;
  _is_group : bool;
  _id : Z;
  _name : string;
  _streams : list Stream.t;
  _image_base_path : string;
  _zone : option Zone.t;
  _group : option Group.t;
  _enabled : bool;
  _last_update_successful : bool;
  _available : bool;
  _extra_attributes : extra_attributes;
  _current_stream : option Stream.t;
  _attr : Media.t
}.

Definition __init__ (zone : option Zone.t) (group : option Group.t)
    (streams : list Stream.t) (sources : list Source.t)
    (image_base_path : string) : result t :=
  let make id name :=
    {| _current_source := None;
       _sources := sources;
       _is_group := match group with Some _ => true | None => false end;
       _id := id;
       _name := name;
       _streams := process_stream_names streams;
       _image_base_path := image_base_path;
       _zone := zone;
       _group := group;
       _enabled := false;
       _last_update_successful := false;
       _available := false;
       _extra_attributes := no_attributes;
       _current_stream := None;
       _attr := Media.unset |} in
  match group, zone with
  | Some g, _ => Ok (make (Group.id g) (Group.name g))
  | None, Some z => Ok (make (Zone.id z) (Zone.name z))
  | None, None => Raise AttributeError
  end.

(** The comparison with [-1] in the source is between a [Source] record
    and an [int] and is never true. *)
Definition state (s : t) : player_state :=
  if negb (_last_update_successful s) then STATE_UNKNOWN
  else
    match _current_source s with
    | None => STATE_IDLE
    | Some src =>
        match Source.info src with
        | None => STATE_IDLE
        | Some info =>
            match SourceInfo.state info with
            | None => STATE_IDLE
            | Some st => state_of_info_state st
            end
        end
    end.

Definition available (s : t) : bool := _available s.

(** [state_zone.id == zone_id and not state_zone.disabled]. *)
Definition enabled_member (zone_id : Z) (state_zone : Zone.t) : bool :=
  (Zone.id state_zone =? zone_id) && negb (Zone.disabled state_zone).

Definition _get_extra_attributes : M t unit :=
  s <- self ;;
  if _is_group s then
    state <- await_get_status ;;
    group <- attr (_group s) ;;
    let zone_ids :=
      flat_map (fun zone_id =>
                  flat_map (fun state_zone =>
                              if enabled_member zone_id state_zone
                              then [zone_id] else [])
                           (Status.zones state))
               (Group.zones group) in
    assign (fun s => s <| _extra_attributes := amplipi_zones zone_ids |>)
  else
    zone <- attr (_zone s) ;;
    assign (fun s =>
              s <| _extra_attributes := amplipi_zone_id (Zone.id zone) |>).

(** The nested loops return [True] at the first enabled member. *)
Definition _update_available : M t bool :=
  state <- await_get_status ;;
  s <- self ;;
  if _is_group s then
    group <- attr (_group s) ;;
    ret (existsb (fun zone_id =>
                    existsb (enabled_member zone_id) (Status.zones state))
                 (Group.zones group))
  else
    match _zone s with
    | None => ret false
    | Some zone => ret (negb (Zone.disabled zone))
    end.

Section Methods.
Context `{Libraries}.

Definition sync_state (zone : option Zone.t) (group : option Group.t)
    (streams : list Stream.t) (sources : list Source.t)
    (enabled : bool) : M t unit :=
  assign (fun s => s <| _zone := zone |>
                     <| _group := group |>
                     <| _streams := process_stream_names streams |>
                     <| _sources := sources |>
                     <| _last_update_successful := true |>
                     <| _enabled := enabled |>
                     <| _current_source := None |>) ;;
  s <- self ;;
  (if _is_group s then
     match sources, group with
     | [], _ => ret tt
     | _ :: _, None => raise AttributeError
     | _ :: _, Some g =>
         assign (fun s =>
           s <| _current_source :=
                  next_filter
                    (fun src =>
                       Py.eq_opt_int (Group.source_id g) (Source.id src))
                    sources |>)
     end
   else
     z <- attr zone ;;
     match Zone.source_id z with
     | Some source_id =>
         assign (fun s =>
           s <| _current_source :=
                  next_filter (fun src => source_id =? Source.id src)
                              sources |>)
     | None => ret tt
     end) ;;
  s <- self ;;
  let info :=
    match _current_source s with
    | Some src => Source.info src
    | None => None
    end in
  match _current_source s with
  | Some src =>
      found <- stream_id_of_input (Source.input src) ;;
      match found with
      | Some stream_id =>
          assign (fun s =>
            s <| _current_stream :=
                   next_filter (fun z => Stream.id z =? stream_id)
                               (_streams s) |>)
      | None => ret tt
      end
  | None => ret tt
  end ;;
  match info with
  | Some info =>
      assign (fun s =>
        s <| _attr :=
          (_attr s)
            <| Media.media_album_artist := SourceInfo.artist info |>
            <| Media.media_album_name := SourceInfo.album info |>
            <| Media.media_title := SourceInfo.name info |>
            <| Media.media_track := SourceInfo.track info |>
            <| Media.media_image_url :=
                 build_url (_image_base_path s) (SourceInfo.img_url info) |>
            <| Media.media_channel := SourceInfo.station info |> |>)
  | None =>
      assign (fun s =>
        s <| _attr :=
          (_attr s)
            <| Media.media_album_artist := None |>
            <| Media.media_album_name := None |>
            <| Media.media_title := None |>
            <| Media.media_track := None |>
            <| Media.media_image_url := None |>
            <| Media.media_channel := None |> |>)
  end.

(** What the [try] block leaves when it neither raises nor returns:
    the snapshot and the locals [zone], [group] and [enabled]. *)
Definition fetch : M t (option (Status.t * option Zone.t
                                * option Group.t * bool)) :=
  state <- await_get_status ;;
  s <- self ;;
  if _is_group s then
    match next_filter (fun z => Group.id z =? _id s)
                      (Status.groups state) with
    | None =>
        assign (fun s => s <| _last_update_successful := false |>) ;;
        ret None
    | Some group =>
        let any_enabled_zone :=
          next_filter
            (fun z => existsb (Z.eqb (Zone.id z)) (Group.zones group))
            (Status.zones state) in
        ret (Some (state, None, Some group,
                   match any_enabled_zone with
                   | Some _ => true
                   | None => false
                   end))
    end
  else
    match next_filter (fun z => Zone.id z =? _id s)
                      (Status.zones state) with
    | None =>
        assign (fun s => s <| _last_update_successful := false |>) ;;
        ret None
    | Some zone =>
        ret (Some (state, Some zone, None, negb (Zone.disabled zone)))
    end.

(** Retrieve latest state. *)
Definition async_update : M t unit :=
  logger INFO "Retrieving state for source" ;;
  fetched <- try fetch ;;
  match fetched with
  | Raise _ =>
      assign (fun s => s <| _last_update_successful := false |>) ;;
      logger ERROR "Could not update"
  | Ok None => ret tt
  | Ok (Some (state, zone, group, enabled)) =>
      _get_extra_attributes ;;
      available <- _update_available ;;
      assign (fun s => s <| _available := available |>) ;;
      sync_state zone group (Status.streams state)
                 (Status.sources state) enabled
  end.
End Methods.

Definition source_list (s : t) : list string := numbered_sources (_sources s).

(** The [source] property.  The comparison of the source record with the
    text ["None"] is never true. *)
Definition source (s : t) : option string :=
  match _current_source s with
  | Some src => Some ("Source " ++ Py.str (Source.id src + 1))
  | None => None
  end.

Definition supported_features `{Features} (s : t) : result Z :=
  supported_features_of ZONE_SUPPORT_LOOKUP_DICT (_current_source s).

End AmpliPiZone.

(** ** [AmpliPiStream] *)

Module AmpliPiStream.

Record t : Type := mk {
  _stream : option Stream.t;
  _current_source : option Source.t;
  _current_zones : list Zone.t;
  _current_groups : list Group.t;
  _sources : list Source.t;
  _id : Z;
  _name : string;
  _image_base_path : string;
  _last_update_successful : bool;
  _available : bool;
  _extra_attributes : extra_attributes;
  _attr : Media.t
}.

(** [stream] is renamed in place by [process_stream_names], so [_name]
    is the processed name. *)
Definition __init__ (stream : Stream.t) (sources : list Source.t)
    (image_base_path : string) : t :=
  let stream := process_stream_name stream in
  {| _stream := Some stream;
     _current_source := None;
     _current_zones := [];
     _current_groups := [];
     _sources := sources;
     _id := Stream.id stream;
     _name := Stream.name stream;
     _image_base_path := image_base_path;
     _last_update_successful := false;
     _available := false;
     _extra_attributes := no_attributes;
     _attr := Media.unset |}.

Definition state (s : t) : player_state :=
  if negb (_last_update_successful s) then STATE_UNKNOWN
  else
    match _current_source s with
    | None => STATE_IDLE
    | Some src =>
        if Source.id src =? -1 then STATE_IDLE
        else
          match Source.info src with
          | None => STATE_IDLE
          | Some info =>
              match SourceInfo.state info with
              | None => STATE_IDLE
              | Some st => state_of_info_state st
              end
          end
    end.

Definition available (s : t) : bool := _available s.

Definition _get_extra_attributes : M t unit :=
  assign (fun s =>
    s <| _extra_attributes :=
           amplipi_source_id (option_map Source.id (_current_source s)) |>).

Definition _update_available : M t bool :=
  s <- self ;;
  match _stream s with
  | None => ret false
  | Some _ => ret true
  end.

(** [source is not None and (source.input == '' or source.input ==
    'None' or source.input is None)]. *)
Definition is_free (source : option Source.t) : bool :=
  match source with
  | None => false
  | Some src =>
      match Source.input src with
      | None => true
      | Some i => String.eqb i "" || String.eqb i "None"
      end
  end.

Definition all_in_use : string :=
  "Not attached to a source and all sources are in use. Clear out a source or select an already existing one and try again.".

(** Connects stream to first available source. *)
Definition find_source : M t unit :=
  s <- self ;;
  match _current_source s with
  | Some _ => ret tt
  | None =>
      sources <- await_get_sources ;;
      assign (fun s =>
        fold_left (fun s source =>
                     if is_free source
                     then s <| _current_source := source |>
                     else s)
                  sources s) ;;
      s <- self ;;
      match _current_source s with
      | None => raise (Exception all_in_use)
      | Some _ => ret tt
      end
  end.

Section Methods.
Context `{Libraries}.

Definition sync_state (stream : option Stream.t)
    (sources : list Source.t) (current_source : option Source.t)
    (zones : list Zone.t) (groups : list Group.t) : M t unit :=
  stream <- attr stream ;;
  assign (fun s => s <| _stream := Some (process_stream_name stream) |>
                     <| _sources := sources |>
                     <| _current_source := current_source |>
                     <| _last_update_successful := true |>
                     <| _current_zones := zones |>
                     <| _current_groups := groups |>) ;;
  let info :=
    match current_source with
    | Some src => Source.info src
    | None => None
    end in
  match info with
  | Some info =>
      assign (fun s =>
        s <| _attr :=
          (_attr s)
            <| Media.media_album_artist := SourceInfo.artist info |>
            <| Media.media_album_name := SourceInfo.album info |>
            <| Media.media_title := SourceInfo.name info |>
            <| Media.media_track := SourceInfo.track info |>
            <| Media.media_image_url :=
                 build_url (_image_base_path s) (SourceInfo.img_url info) |>
            <| Media.media_channel := SourceInfo.station info |> |>)
  | None =>
      assign (fun s =>
        s <| _attr :=
          (_attr s)
            <| Media.media_album_artist := None |>
            <| Media.media_album_name := None |>
            <| Media.media_title := None |>
            <| Media.media_track := None |>
            <| Media.media_image_url := None |>
            <| Media.media_channel := None |> |>)
  end.

(** What the [try] block leaves when it does not raise: the snapshot
    and the locals [stream], [current_source], [zones] and [groups].
    [current_source] is assigned only under [if stream is not None];
    the outer [None] is the local left unbound. *)
Definition fetch : M t (Status.t * option Stream.t
                        * option (option Source.t)
                        * list Zone.t * list Group.t) :=
  state <- await_get_status ;;
  s <- self ;;
  let stream :=
    next_filter (fun x => Stream.id x =? _id s) (Status.streams state) in
  match stream with
  | Some st =>
      let current_source :=
        find (fun src =>
                Py.eq_opt_str (Source.input src)
                  (Some ("stream=" ++ Py.str (Stream.id st))))
             (Status.sources state) in
      match current_source with
      | Some src =>
          ret (state, stream, Some current_source,
               filter (fun zone =>
                         Py.eq_opt_int (Zone.source_id zone) (Source.id src))
                      (Status.zones state),
               filter (fun group =>
                         Py.eq_opt_int (Group.source_id group) (Source.id src))
                      (Status.groups state))
      | None => ret (state, stream, Some None, [], [])
      end
  | None => ret (state, None, None, [], [])
  end.

(** Retrieve latest state. *)
Definition async_update : M t unit :=
  logger INFO "Retrieving state for stream" ;;
  fetched <- try fetch ;;
  match fetched with
  | Raise _ =>
      assign (fun s => s <| _last_update_successful := false |>) ;;
      logger ERROR "Could not update stream due to error:" ;;
      logger ERROR "(the exception)"
  | Ok (state, stream, current_source, zones, groups) =>
      _get_extra_attributes ;;
      available <- _update_available ;;
      assign (fun s => s <| _available := available |>) ;;
      match current_source with
      | None => raise UnboundLocalError
      | Some current_source =>
          sync_state stream (Status.sources state) current_source
                     zones groups
      end
  end.
End Methods.

Definition source_list (s : t) : list string := numbered_sources (_sources s).

(** The [source] property.  The comparison of the source record with the
    text ["None"] is never true. *)
Definition source (s : t) : option string :=
  match _current_source s with
  | Some src => Some ("Source " ++ Py.str (Source.id src + 1))
  | None => None
  end.

Definition supported_features `{Features} (s : t) : result Z :=
  supported_features_of STREAM_SUPPORT_LOOKUP_DICT (_current_source s).

Definition async_turn_on : M t unit := find_source.

Section Commands.
Context `{Libraries}.

Definition _update_source (source_id : Z) (input : string) : M t unit :=
  await_set_source source_id input ;;
  async_update.

(** The logged message also carries the printed source record. *)
Definition async_turn_off : M t unit :=
  s <- self ;;
  match _current_source s with
  | Some src =>
      logger INFO "Disconnecting stream from source" ;;
      _update_source (Source.id src) "None"
  | None => ret tt
  end.

(** [next((s for s in self._sources if s.id == source_id),
    self._current_source)] keeps the current source when no cached source
    has the id. *)
Definition async_select_source (source : string) : M t unit :=
  source_id <- lift (extract_source_id_from_name source) ;;
  assign (fun s =>
            s <| _current_source :=
                   match find (fun x => Source.id x =? source_id)
                              (_sources s) with
                   | Some x => Some x
                   | None => _current_source s
                   end |>) ;;
  s <- self ;;
  _update_source source_id ("stream=" ++ Py.str (_id s)) ;;
  async_update.
End Commands.

End AmpliPiStream.

(** ** Notions used to state the properties *)

(** The number of positions of [s] at which [sub] occurs. *)
Fixpoint occurrences (sub s : string) : nat :=
  ((if String.prefix sub s then 1 else 0)
   + match s with
     | EmptyString => 0
     | String _ s' => occurrences sub s'
     end)%nat.

(** ["AmpliPi Stream {id}:"]. *)
Definition stream_prefix (id : Z) : string :=
  "AmpliPi Stream " ++ Py.str id ++ ":".

(** A device that answers the [n]-th request, when it is a status fetch,
    with the [n]-th element of [replies] and fails past their end; that
    answers every [get_sources] with [sources]; and that accepts every
    [set_source].  Nothing requested or logged yet. *)
Definition device (replies : list (result Status.t))
    (sources : list (option Source.t)) : World.t :=
  {| World.status_reply := fun n => nth n replies (Raise ClientError);
     World.sources_reply := fun _ => Ok sources;
     World.set_source_reply := fun _ => Ok tt;
     World.requests := [];
     World.log := [] |}.

(** What a method leaves behind: the entity and the world. *)
Definition entity_after {Self A} (r : result A * (Self * World.t)) : Self :=
  fst (snd r).

Definition world_after {Self A} (r : result A * (Self * World.t))
  : World.t :=
  snd (snd r).

Definition outcome {Self A} (r : result A * (Self * World.t)) : result A :=
  fst r.

(** The next status fetch in world [w] is answered with [r]. *)
Definition next_status (w : World.t) (r : result Status.t) : Prop :=
  World.status_reply w (List.length (World.requests w)) = r.

(** Records used in the concrete runs. *)
Definition radio : Stream.t := Stream.mk 1000 "Radio" "internetradio".

Definition info_with_state (st : string) : SourceInfo.t :=
  SourceInfo.mk (Some "Radio") (Some st) None None None None None [].

Definition input_1 (st : string) : Source.t :=
  Source.mk 0 "Input 1" (Some "stream=1000") (Some (info_with_state st)).

Definition snapshot (st : string) (streams : list Stream.t) : Status.t :=
  Status.mk [input_1 st]
            [Zone.mk 0 "Kitchen" (Some 0) (Some false) None false]
            [Group.mk 100 "Downstairs" (Some 0) [0] (Some false) None]
            streams.

Definition base_path : string := "http://amplipi.local".

(** A cached stream as [process_stream_names] leaves it, with an id in
    the ranges the device uses. *)
Definition processed_stream (y : Stream.t) : Prop :=
  996 <= Stream.id y <= 1999
  /\ exists raw, Stream.name y
                 = "AmpliPi Stream " ++ Py.str (Stream.id y) ++ ": " ++ raw.

(** Unfolds the operations of the effect monad. *)
Ltac run :=
  unfold bind, ret, raise, lift, try, self, assign, attr, logger, call,
    await_get_status, await_get_sources, await_set_source; cbn.

(** One digit of the induction that reads a decimal numeral back. *)
Ltac digit_step IHd acc :=
  cbn [NilEmpty.string_of_uint list_ascii_of_string Py.int_digits];
  change (Py.is_digit _) with true; cbv iota;
  match goal with
  | |- context [Py.int_digits ?a true _] =>
      destruct (IHd a true (or_intror eq_refl)) as (v & Hv & H0 & Hp);
      exists v; split; [exact Hv|]; split;
      [ intros ->;
        first [ apply H0; reflexivity
              | unfold Z.of_uint; cbn [Pos.of_uint Z.of_N];
                apply Hp; reflexivity ]
      | intros p ->; cbn [Pos.of_uint_acc]; apply Hp;
        match goal with
        | |- context [Py.digit_value ?c] =>
            let k := eval vm_compute in (Py.digit_value c) in
            change (Py.digit_value c) with k
        end; lia ]
  end.

(** * Properties *)

(** ** Strings *)

Lemma prefix_app_l (a b t : string) :
  String.prefix (a ++ b) t = true -> String.prefix a t = true.
Proof.
  revert t; induction a as [|c a IH]; intros t Hp.
  - now destruct t.
  - destruct t as [|d t]; simpl in *; [discriminate|].
    destruct (Ascii.ascii_dec c d); [now apply IH | discriminate].
Qed.

Lemma prefix_app_same (a t : string) : String.prefix a (a ++ t) = true.
Proof.
  induction a as [|c a IH]; simpl.
  - now destruct t.
  - destruct (Ascii.ascii_dec c c); [exact IH | congruence].
Qed.

Lemma contains_false_prefix (sub s : string) :
  Py.contains sub s = false -> String.prefix sub s = false.
Proof.
  destruct s; simpl; intros Hc; apply orb_false_iff in Hc; tauto.
Qed.

Lemma prefix_trans (a b t : string) :
  String.prefix a b = true -> String.prefix b t = true ->
  String.prefix a t = true.
Proof.
  revert b t; induction a as [|c a IH]; intros b t Hab Hbt.
  - now destruct t.
  - destruct b as [|d b]; [discriminate|].
    destruct t as [|e t]; [discriminate|]. simpl in *.
    destruct (Ascii.ascii_dec c d); [subst|discriminate].
    destruct (Ascii.ascii_dec d e); [subst|discriminate].
    now apply IH with b.
Qed.

Lemma contains_false_occurrences (sub q s : string) :
  String.prefix sub q = true ->
  Py.contains sub s = false -> occurrences q s = 0%nat.
Proof.
  intros Hq; induction s as [|c s IH]; intros Hc.
  - apply contains_false_prefix in Hc. cbn [occurrences].
    destruct (String.prefix q "") eqn:E; [|reflexivity].
    now rewrite (prefix_trans _ _ _ Hq E) in Hc.
  - pose proof (contains_false_prefix _ _ Hc) as Hp.
    cbn [Py.contains] in Hc. apply orb_false_iff in Hc.
    cbn [occurrences]. rewrite (IH (proj2 Hc)).
    destruct (String.prefix q (String c s)) eqn:E; [|reflexivity].
    now rewrite (prefix_trans _ _ _ Hq E) in Hp.
Qed.

Lemma occurrences_skip (c : ascii) (q y z : string) :
  ~ In c (list_ascii_of_string y) ->
  occurrences (String c q) (y ++ z) = occurrences (String c q) z.
Proof.
  induction y as [|d y IH]; intros Hn; [reflexivity|].
  change (String d y ++ z) with (String d (y ++ z)).
  cbn [occurrences String.prefix].
  destruct (Ascii.ascii_dec c d) as [->|_].
  - exfalso. apply Hn. now left.
  - apply IH. intros Hin. apply Hn. now right.
Qed.

Lemma list_ascii_app (a b : string) :
  list_ascii_of_string (a ++ b)
  = (list_ascii_of_string a ++ list_ascii_of_string b)%list.
Proof. induction a; simpl; congruence. Qed.

(** The decimal text of an integer is made of digits and a sign. *)
Lemma str_chars (n : Z) (c : ascii) :
  In c (list_ascii_of_string (Py.str n)) ->
  Py.is_digit c = true \/ c = "-"%char.
Proof.
  assert (U : forall d, In c (list_ascii_of_string (NilEmpty.string_of_uint d)) ->
                        Py.is_digit c = true).
  { induction d; simpl; intros Hin; [contradiction|..];
      (destruct Hin as [<-|Hin]; [reflexivity | auto]). }
  assert (V : forall d, In c (list_ascii_of_string (NilZero.string_of_uint d)) ->
                        Py.is_digit c = true).
  { intros d. destruct d; try apply U. simpl. intros [<-|[]]. reflexivity. }
  unfold Py.str, NilZero.string_of_int.
  destruct (Z.to_int n); simpl; intros Hin.
  - left. now apply V in Hin.
  - destruct Hin as [<-|Hin]; [now right | left; now apply V in Hin].
Qed.

(** ** The stream-name normalizer *)

Lemma processed_name_marked (stream : Stream.t) :
  Py.contains marker (processed_name stream) = true.
Proof. reflexivity. Qed.

Lemma process_stream_name_marked (stream : Stream.t) :
  Py.contains marker (Stream.name (process_stream_name stream)) = true.
Proof.
  unfold process_stream_name.
  destruct (Py.contains marker (Stream.name stream)) eqn:E.
  - exact E.
  - exact (processed_name_marked stream).
Qed.

Lemma process_stream_name_again (stream : Stream.t) :
  process_stream_name (process_stream_name stream)
  = process_stream_name stream.
Proof.
  unfold process_stream_name at 1.
  now rewrite process_stream_name_marked.
Qed.

Lemma process_stream_names_again (streams : list Stream.t) :
  process_stream_names (process_stream_names streams)
  = process_stream_names streams.
Proof.
  unfold process_stream_names. rewrite map_map.
  apply map_ext. intros; apply process_stream_name_again.
Qed.

Lemma process_stream_names_iter (n : nat) (streams : list Stream.t) :
  Nat.iter (S n) process_stream_names streams
  = process_stream_names streams.
Proof.
  induction n as [|n IH]; [reflexivity|].
  change (Nat.iter (S (S n)) process_stream_names streams)
    with (process_stream_names (Nat.iter (S n) process_stream_names streams)).
  rewrite IH. apply process_stream_names_again.
Qed.

Lemma processed_name_prefix (stream : Stream.t) :
  String.prefix (stream_prefix (Stream.id stream)) (processed_name stream)
  = true.
Proof.
  unfold stream_prefix, processed_name. cbn.
  repeat (destruct (Ascii.ascii_dec _ _); [|congruence]).
  induction (Py.str (Stream.id stream)) as [|c t IH]; cbn.
  - reflexivity.
  - destruct (Ascii.ascii_dec c c); [exact IH | congruence].
Qed.

Lemma append_assoc (a b c : string) : (a ++ b) ++ c = a ++ b ++ c.
Proof. induction a; cbn; congruence. Qed.

Lemma processed_name_once (stream : Stream.t) :
  Py.contains marker (Stream.name stream) = false ->
  occurrences (stream_prefix (Stream.id stream)) (processed_name stream)
  = 1%nat.
Proof.
  intros Hm.
  pose proof (processed_name_prefix stream) as Hp.
  assert (Hq : String.prefix marker (stream_prefix (Stream.id stream)) = true)
    by reflexivity.
  pose proof (contains_false_occurrences _ _ _ Hq Hm) as H0.
  assert (Hd : ~ In "A"%char
                 (list_ascii_of_string (Py.str (Stream.id stream) ++ ": "))).
  { rewrite list_ascii_app. intros Hin. apply in_app_or in Hin.
    destruct Hin as [Hin|Hin].
    - apply str_chars in Hin. destruct Hin as [Hin|Hin]; discriminate.
    - simpl in Hin. destruct Hin as [Hin|[Hin|[]]]; discriminate. }
  pose proof (occurrences_skip "A"
                ("mpliPi Stream " ++ Py.str (Stream.id stream) ++ ":")
                _ (Stream.name stream) Hd) as Hs.
  change (String "A" ("mpliPi Stream " ++ Py.str (Stream.id stream) ++ ":"))
    with (stream_prefix (Stream.id stream)) in Hs.
  rewrite H0 in Hs.
  assert (Hx : processed_name stream
               = "AmpliPi Stream "
                 ++ ((Py.str (Stream.id stream) ++ ": ") ++ Stream.name stream)).
  { unfold processed_name. now rewrite append_assoc. }
  rewrite Hx in *. 
  set (T := (Py.str (Stream.id stream) ++ ": ") ++ Stream.name stream) in *.
  clearbody T.
  change (stream_prefix (Stream.id stream))
    with (String "A" ("mpliPi Stream " ++ Py.str (Stream.id stream) ++ ":")) in *.
  set (Q := "mpliPi Stream " ++ Py.str (Stream.id stream) ++ ":") in *.
  clearbody Q.
  cbn [append] in *. cbn [occurrences]. rewrite Hp, Hs.
  cbn [String.prefix].
  repeat match goal with
          | |- context [Ascii.ascii_dec ?a ?b] =>
              destruct (Ascii.ascii_dec a b); [discriminate|]
          end.
  reflexivity.
Qed.

(** C5 (as stated, refuted): after normalization a name need not carry
    the ["AmpliPi Stream {id}:"] prefix exactly once.  A name that already
    contains the marker is left as it is, whether or not it is prefixed. *)
Lemma process_stream_names_prefix_not_always_once :
  let streams := [Stream.mk 5 "My AmpliPi Stream" "rca";
                  Stream.mk 996
                    "AmpliPi Stream 996: AmpliPi Stream 996: Input 1" "rca"] in
  map Stream.name (process_stream_names streams) = map Stream.name streams
  /\ ~ (forall stream',
          In stream' (process_stream_names streams) ->
          occurrences (stream_prefix (Stream.id stream')) (Stream.name stream')
          = 1%nat).
Proof.
  split; [reflexivity|].
  intros Hall.
  specialize (Hall (Stream.mk 5 "My AmpliPi Stream" "rca")).
  discriminate Hall. now left.
Qed.

(** C5 (amended): [process_stream_names] is idempotent, so any number of
    runs gives the names of one run; a name that contains the marker
    ["AmpliPi Stream"] is kept, and a name that does not becomes
    ["AmpliPi Stream {id}: {name}"], in which the prefix
    ["AmpliPi Stream {id}:"] occurs exactly once. *)
Theorem process_stream_names_idempotent (streams : list Stream.t) (n : nat) :
  process_stream_names (process_stream_names streams)
  = process_stream_names streams
  /\ Nat.iter (S n) process_stream_names streams
     = process_stream_names streams
  /\ Forall2
       (fun stream stream' =>
          Stream.id stream' = Stream.id stream
          /\ Stream.type stream' = Stream.type stream
          /\ (Py.contains marker (Stream.name stream) = true ->
              Stream.name stream' = Stream.name stream)
          /\ (Py.contains marker (Stream.name stream) = false ->
              Stream.name stream' = processed_name stream
              /\ String.prefix (stream_prefix (Stream.id stream))
                               (Stream.name stream') = true
              /\ occurrences (stream_prefix (Stream.id stream))
                             (Stream.name stream') = 1%nat))
       streams (Nat.iter (S n) process_stream_names streams).
Proof.
  split; [apply process_stream_names_again|].
  split; [apply process_stream_names_iter|].
  rewrite process_stream_names_iter. unfold process_stream_names.
  induction streams as [|stream streams IH]; constructor; [|exact IH].
  unfold process_stream_name.
  destruct (Py.contains marker (Stream.name stream)) eqn:E; cbn.
  - split; [reflexivity|]. split; [reflexivity|].
    split; [reflexivity | discriminate].
  - split; [reflexivity|]. split; [reflexivity|].
    split; [discriminate|]. intros _.
    split; [reflexivity|].
    split; [apply processed_name_prefix | now apply processed_name_once].
Qed.

Lemma process_stream_names_idempotent_witness :
  Py.contains marker "Radio" = false
  /\ Nat.iter 3 process_stream_names [Stream.mk 1001 "Radio" "internetradio"]
     = process_stream_names [Stream.mk 1001 "Radio" "internetradio"]
  /\ occurrences (stream_prefix 1001) "AmpliPi Stream 1001: Radio" = 1%nat.
Proof.
  destruct (process_stream_names_idempotent
              [Stream.mk 1001 "Radio" "internetradio"] 2) as (_ & Hi & Hf).
  split; [reflexivity|]. split; [exact Hi|].
  inversion Hf as [|? ? ? ? Hhd _]; subst.
  destruct Hhd as (_ & _ & _ & Hc).
  exact (proj2 (proj2 (Hc eq_refl))).
Defined.

(** ** The name/ID codec *)

Lemma int_of_digit (c : ascii) :
  Py.is_digit c = true -> Py.int (String c "") = Ok (Py.digit_value c).
Proof.
  destruct c as [[] [] [] [] [] [] [] []]; intros Hd;
    try discriminate Hd; reflexivity.
Qed.

Lemma join_cons (c : ascii) (l : list string) :
  Py.join (String c "" :: l) = String c (Py.join l).
Proof. destruct l; reflexivity. Qed.

Lemma join_findall_digit_head (label : string) (d : ascii) (rest : string) :
  Py.join (Py.findall_digit label) = String d rest -> Py.is_digit d = true.
Proof.
  induction label as [|c label IH]; cbn [Py.findall_digit].
  - discriminate.
  - destruct (Py.is_digit c) eqn:E; [|exact IH].
    rewrite join_cons. intros Hj. now injection Hj as <- _.
Qed.

(** C6 (as stated, refuted): the source codec reads one digit, not a digit
    group, and the stream codec returns [None] with an error record for an
    id that starts with neither 1 nor 9, and glues digit groups together. *)
Lemma codec_not_first_digit_group :
  extract_source_id_from_name "Source 12" = Ok 0
  /\ extract_source_id_from_name "Source 12" <> Ok (12 - 1)
  /\ (forall st,
        fst (AmpliPiSource.process_stream_id "AmpliPi Stream 2000: Radio" st)
        = Ok None)
  /\ (forall st,
        fst (AmpliPiSource.process_stream_id "AmpliPi Stream 12: Radio 5" st)
        = Ok (Some "125")).
Proof.
  split; [reflexivity|]. split; [discriminate|].
  split; intros st; reflexivity.
Qed.

(** C6 (amended): on a label with at least one digit, where [d] is its
    first digit and [ds] all its digits in order,
    [extract_source_id_from_name] returns [d - 1], and [process_stream_id]
    returns the text [ds[:4]] when [d] is 1, [ds[:3]] when [d] is 9, and
    otherwise [None] after logging an error; neither touches the entity nor
    the device.  So ["Source 3"] gives 2 and
    ["AmpliPi Stream 1001: Radio"] gives ["1001"]. *)
Theorem codec_first_digit (label : string) (d : ascii) (rest : string) :
  Py.join (Py.findall_digit label) = String d rest ->
  extract_source_id_from_name label = Ok (Py.digit_value d - 1)
  /\ (forall st : AmpliPiSource.t * World.t,
        AmpliPiSource.process_stream_id label st
        = if Py.digit_value d =? 1
          then (Ok (Some (Py.take 4 (String d rest))), st)
          else if Py.digit_value d =? 9
          then (Ok (Some (Py.take 3 (String d rest))), st)
          else (Ok None,
                (fst st,
                 (snd st) <| World.log ::=
                   cons (ERROR,
                         "AmpliPiSource.process_stream_id() could not determine stream ID") |>)))
  /\ extract_source_id_from_name "Source 3" = Ok 2
  /\ (forall st : AmpliPiSource.t * World.t,
        AmpliPiSource.process_stream_id "AmpliPi Stream 1001: Radio" st
        = (Ok (Some "1001"), st)).
Proof.
  intros Hj. pose proof (join_findall_digit_head _ _ _ Hj) as Hd.
  split; [|split; [|split; [reflexivity | intros [e w]; reflexivity]]].
  - unfold extract_source_id_from_name. rewrite Hj. cbn [Py.first].
    now rewrite (int_of_digit _ Hd).
  - intros [e w]. unfold AmpliPiSource.process_stream_id.
    rewrite Hj. unfold bind, lift. cbn [Py.first].
    rewrite (int_of_digit _ Hd).
    destruct (Py.digit_value d =? 1); [reflexivity|].
    destruct (Py.digit_value d =? 9); reflexivity.
Qed.

Lemma codec_first_digit_witness :
  Py.join (Py.findall_digit "Source 4") = "4"
  /\ extract_source_id_from_name "Source 4" = Ok 3.
Proof.
  split; [reflexivity|].
  exact (proj1 (codec_first_digit "Source 4" "4" "" eq_refl)).
Defined.

(** X1: a label without a decimal digit makes both codecs raise
    [IndexError], from indexing the empty text of its digits; the stream
    codec leaves the entity and the device as they were. *)
Lemma codec_no_digit_raises (label : string) :
  Py.findall_digit label = [] ->
  extract_source_id_from_name label = Raise IndexError
  /\ forall st : AmpliPiSource.t * World.t,
       AmpliPiSource.process_stream_id label st = (Raise IndexError, st).
Proof.
  intros Hn. unfold extract_source_id_from_name,
    AmpliPiSource.process_stream_id. rewrite Hn.
  split; [reflexivity | intros [e w]; reflexivity].
Qed.

Lemma codec_no_digit_raises_witness :
  Py.findall_digit "Radio" = []
  /\ extract_source_id_from_name "Radio" = Raise IndexError.
Proof.
  split; [reflexivity|].
  exact (proj1 (codec_no_digit_raises "Radio" eq_refl)).
Defined.

(** ** The image URL resolver *)




(** ** The source list of a source entity *)

(** C10: [source_list] starts with ["None"], followed, in cache order, by
    the names of exactly the cached streams whose id is at least 1000 or
    equals 996 plus the source's id; a stream with an id from 996 to 999 is
    kept only on the source whose id is the stream's id minus 996, and a
    stream with an id below 1000 that is not 996 plus the source's id is
    left out. *)
Theorem source_list_spec (s : AmpliPiSource.t) :
  let offered (stream : Stream.t) :=
    1000 <= Stream.id stream
    \/ Stream.id stream = 996 + AmpliPiSource._id s in
  exists kept : list Stream.t,
    AmpliPiSource.source_list s = "None" :: map Stream.name kept
    /\ hd_error (AmpliPiSource.source_list s) = Some "None"
    /\ (forall stream, In stream kept <->
                       In stream (AmpliPiSource._streams s) /\ offered stream)
    /\ (exists dropped, Permutation.Permutation
                          (AmpliPiSource._streams s) (kept ++ dropped)
                        /\ forall stream, In stream dropped -> ~ offered stream)
    /\ kept = filter (fun stream =>
                        (1000 <=? Stream.id stream)
                        || (Stream.id stream =? 996 + AmpliPiSource._id s))
                     (AmpliPiSource._streams s)
    /\ (forall stream,
          In stream (AmpliPiSource._streams s) ->
          996 <= Stream.id stream <= 999 ->
          (In stream kept <->
           AmpliPiSource._id s = Stream.id stream - 996)).
Proof.
  intros offered.
  set (p := fun stream : Stream.t =>
              (Stream.id stream >=? 1000)
              || (Stream.id stream - 996 =? AmpliPiSource._id s)).
  assert (Hp : forall stream, p stream = true <-> offered stream).
  { intros stream. unfold p, offered.
    rewrite orb_true_iff, Z.geb_le, Z.eqb_eq. lia. }
  exists (filter p (AmpliPiSource._streams s)).
  split; [reflexivity|]. split; [reflexivity|].
  split; [intros stream; rewrite filter_In, Hp; tauto|].
  split.
  { exists (filter (fun x => negb (p x)) (AmpliPiSource._streams s)). split.
    - induction (AmpliPiSource._streams s) as [|x l IH]; [constructor|].
      cbn [filter]. destruct (p x); cbn [negb app].
      + now constructor.
      + now apply Permutation.Permutation_cons_app.
    - intros stream Hin. apply filter_In in Hin. destruct Hin as [_ Hn].
      rewrite <- Hp. destruct (p stream); [discriminate | congruence]. }
  split.
  { apply filter_ext. intros stream. unfold p.
    f_equal; [apply Z.geb_leb|].
    destruct (Z.eqb_spec (Stream.id stream - 996) (AmpliPiSource._id s));
      destruct (Z.eqb_spec (Stream.id stream) (996 + AmpliPiSource._id s));
      lia || reflexivity. }
  intros stream Hin Hr. rewrite filter_In, Hp. unfold offered.
  split; [intros [_ [?|?]]; lia | intros ->; split; [exact Hin | right; lia]].
Qed.

(** ** Playback state *)

Lemma state_of_info_state_recognised :
  state_of_info_state "playing" = STATE_PLAYING
  /\ state_of_info_state "paused" = STATE_PAUSED
  /\ state_of_info_state "stopped" = STATE_IDLE.
Proof. repeat split. Qed.

(** A cleared flag overrides everything else, in the three entities. *)
Lemma state_unknown_when_flag_cleared :
  (forall s, AmpliPiSource._last_update_successful s = false ->
             AmpliPiSource.state s = STATE_UNKNOWN)
  /\ (forall s, AmpliPiZone._last_update_successful s = false ->
                AmpliPiZone.state s = STATE_UNKNOWN)
  /\ (forall s, AmpliPiStream._last_update_successful s = false ->
                AmpliPiStream.state s = STATE_UNKNOWN).
Proof.
  repeat split; intros s Hf;
    unfold AmpliPiSource.state, AmpliPiZone.state, AmpliPiStream.state;
    now rewrite Hf.
Qed.

(** With the flag set, an absent source, info record or state field gives
    idle. *)
Lemma source_state_idle_when_absent (s : AmpliPiSource.t) :
  AmpliPiSource._last_update_successful s = true ->
  match AmpliPiSource._source s with
  | None => True
  | Some src =>
      match Source.info src with
      | None => True
      | Some info => SourceInfo.state info = None
      end
  end ->
  AmpliPiSource.state s = STATE_IDLE.
Proof.
  unfold AmpliPiSource.state. intros -> Ha. cbn.
  destruct (AmpliPiSource._source s) as [src|]; [|reflexivity].
  destruct (Source.info src) as [info|]; [|reflexivity].
  now rewrite Ha.
Qed.

(** The [elif] chain tests for substrings, so a state text that is part of
    ["paused"] reads as paused and one that is part of ["playing"] as
    playing. *)
Lemma state_of_info_state_substring (st : string) :
  state_of_info_state st
  = if Py.contains st "paused" then STATE_PAUSED
    else if Py.contains st "playing" then STATE_PLAYING
    else STATE_IDLE.
Proof.
  unfold state_of_info_state.
  now destruct (Py.contains st "paused"), (Py.contains st "playing"),
    (Py.contains st "stopped").
Qed.

(** C1 (the code at the failing input): entities polled with success from
    a snapshot whose info state is ["pause"], or the empty text, report
    paused, and ["play"] reports playing, where the specification asks for
    idle.  Shown for the source entity of source 0, the zone entity of a zone
    on source 0 and the stream entity of the stream on source 0. *)
Theorem state_of_unrecognised_value `{Libraries} :
  let poll (st : string) :=
    AmpliPiSource.async_update
      (AmpliPiSource.__init__ (input_1 "stopped") [radio] base_path,
       device [Ok (snapshot st [radio])] []) in
  let poll_stream (st : string) :=
    AmpliPiStream.async_update
      (AmpliPiStream.__init__ radio [] base_path,
       device [Ok (snapshot st [radio])] []) in
  outcome (poll "pause") = Ok tt
  /\ AmpliPiSource._last_update_successful (entity_after (poll "pause")) = true
  /\ AmpliPiSource.state (entity_after (poll "pause")) = STATE_PAUSED
  /\ AmpliPiSource.state (entity_after (poll "")) = STATE_PAUSED
  /\ AmpliPiSource.state (entity_after (poll "play")) = STATE_PLAYING
  /\ AmpliPiSource.state (entity_after (poll "connected")) = STATE_IDLE
  /\ (exists kitchen,
        AmpliPiZone.__init__
          (Some (Zone.mk 0 "Kitchen" (Some 0) (Some false) None false))
          None [radio] [] base_path = Ok kitchen
        /\ let r := AmpliPiZone.async_update
                      (kitchen, device [Ok (snapshot "pause" [radio]);
                                        Ok (snapshot "pause" [radio])] []) in
           outcome r = Ok tt
           /\ AmpliPiZone.state (entity_after r) = STATE_PAUSED)
  /\ outcome (poll_stream "pause") = Ok tt
  /\ AmpliPiStream.state (entity_after (poll_stream "pause")) = STATE_PAUSED.
Proof.
  repeat split. eexists. split; [reflexivity|]. split; reflexivity.
Qed.

(** ** The update cycle on a failed poll *)

Section FailedPoll.
Context `{Libraries}.

(** A source entity whose status fetch raises only clears the flag; one
    request was made. *)
Lemma source_update_failed_fetch (e : AmpliPiSource.t) (w : World.t)
    (src : Source.t) (ex : exn) :
  AmpliPiSource._source e = Some src ->
  next_status w (Raise ex) ->
  let r := AmpliPiSource.async_update (e, w) in
  outcome r = Ok tt
  /\ entity_after r = e <| AmpliPiSource._last_update_successful := false |>
  /\ World.requests (world_after r) = get_status :: World.requests w
  /\ AmpliPiSource.state (entity_after r) = STATE_UNKNOWN.
Proof.
  unfold next_status. destruct e, w; cbn. intros -> Hr.
  unfold AmpliPiSource.async_update. run. rewrite Hr. repeat split.
Qed.

(** The same when the snapshot has no source with the entity's id. *)
Lemma source_update_missing_source (e : AmpliPiSource.t) (w : World.t)
    (src : Source.t) (st : Status.t) :
  AmpliPiSource._source e = Some src ->
  next_status w (Ok st) ->
  next_filter (fun z => Source.id z =? Source.id src) (Status.sources st)
  = None ->
  let r := AmpliPiSource.async_update (e, w) in
  outcome r = Ok tt
  /\ entity_after r = e <| AmpliPiSource._last_update_successful := false |>
  /\ World.requests (world_after r) = get_status :: World.requests w
  /\ AmpliPiSource.state (entity_after r) = STATE_UNKNOWN.
Proof.
  unfold next_status. destruct e, w; cbn. intros -> Hr Hn.
  unfold AmpliPiSource.async_update. run. rewrite Hr, Hn. repeat split.
Qed.

Lemma zone_update_failed_fetch (e : AmpliPiZone.t) (w : World.t)
    (ex : exn) :
  next_status w (Raise ex) ->
  let r := AmpliPiZone.async_update (e, w) in
  outcome r = Ok tt
  /\ entity_after r = e <| AmpliPiZone._last_update_successful := false |>
  /\ World.requests (world_after r) = get_status :: World.requests w
  /\ AmpliPiZone.state (entity_after r) = STATE_UNKNOWN.
Proof.
  unfold next_status. destruct e, w; cbn. intros Hr.
  unfold AmpliPiZone.async_update, AmpliPiZone.fetch.
  run. rewrite Hr. repeat split.
Qed.

Lemma zone_update_missing_record (e : AmpliPiZone.t) (w : World.t)
    (st : Status.t) :
  next_status w (Ok st) ->
  (if AmpliPiZone._is_group e
   then next_filter (fun z => Group.id z =? AmpliPiZone._id e)
                    (Status.groups st) = None
   else next_filter (fun z => Zone.id z =? AmpliPiZone._id e)
                    (Status.zones st) = None) ->
  let r := AmpliPiZone.async_update (e, w) in
  outcome r = Ok tt
  /\ entity_after r = e <| AmpliPiZone._last_update_successful := false |>
  /\ World.requests (world_after r) = get_status :: World.requests w
  /\ AmpliPiZone.state (entity_after r) = STATE_UNKNOWN.
Proof.
  unfold next_status. destruct e as [? ? g ? ? ? ? ? ? ? ? ? ? ? ?], w; cbn.
  intros Hr Hn. unfold AmpliPiZone.async_update, AmpliPiZone.fetch.
  run. rewrite Hr. destruct g; rewrite Hn; repeat split.
Qed.

Lemma stream_update_failed_fetch (e : AmpliPiStream.t) (w : World.t)
    (ex : exn) :
  next_status w (Raise ex) ->
  let r := AmpliPiStream.async_update (e, w) in
  outcome r = Ok tt
  /\ entity_after r = e <| AmpliPiStream._last_update_successful := false |>
  /\ World.requests (world_after r) = get_status :: World.requests w
  /\ AmpliPiStream.state (entity_after r) = STATE_UNKNOWN.
Proof.
  unfold next_status. destruct e, w; cbn. intros Hr.
  unfold AmpliPiStream.async_update, AmpliPiStream.fetch.
  run. rewrite Hr. repeat split.
Qed.

(** X2: a stream entity polled with a snapshot that lacks its stream
    record: the local [current_source] is unbound when [sync_state] is
    called, so the poll raises [UnboundLocalError] after its one request.
    The flag keeps its value; [_extra_attributes] and [_available] were
    assigned on the way. *)
Lemma stream_update_missing_record (e : AmpliPiStream.t) (w : World.t)
    (st : Status.t) :
  next_status w (Ok st) ->
  next_filter (fun x => Stream.id x =? AmpliPiStream._id e)
              (Status.streams st) = None ->
  let r := AmpliPiStream.async_update (e, w) in
  outcome r = Raise UnboundLocalError
  /\ entity_after r
     = e <| AmpliPiStream._extra_attributes :=
              amplipi_source_id
                (option_map Source.id (AmpliPiStream._current_source e)) |>
         <| AmpliPiStream._available :=
              match AmpliPiStream._stream e with
              | Some _ => true
              | None => false
              end |>
  /\ AmpliPiStream._last_update_successful (entity_after r)
     = AmpliPiStream._last_update_successful e
  /\ World.requests (world_after r) = get_status :: World.requests w.
Proof.
  unfold next_status. destruct e as [[?|] ? ? ? ? ? ? ? ? ? ? ?], w; cbn;
    intros Hr Hn;
    unfold AmpliPiStream.async_update, AmpliPiStream.fetch,
      AmpliPiStream._get_extra_attributes, AmpliPiStream._update_available;
    run; rewrite Hr, Hn; repeat split.
Qed.
End FailedPoll.

Lemma stream_update_missing_record_witness :
  let st := Status.mk [input_1 "playing"] [] [] [] in
  let r := AmpliPiStream.async_update
             (H := {| validators_url := fun _ => false |})
             (AmpliPiStream.__init__ radio [] base_path, device [Ok st] []) in
  outcome r = Raise UnboundLocalError
  /\ AmpliPiStream._last_update_successful (entity_after r) = false
  /\ World.requests (world_after r) = [get_status].
Proof.
  intros st r.
  pose proof (stream_update_missing_record
                (H := {| validators_url := fun _ => false |})
                (AmpliPiStream.__init__ radio [] base_path)
                (device [Ok st] []) st eq_refl eq_refl)
    as (H1 & _ & H3 & H4).
  repeat split; assumption.
Defined.

(** C9 (the code at the failing input): a stream entity is created for
    stream 1000 and polled twice; the first snapshot has the stream playing
    on source 0, the second has no stream 1000.  The second poll raises
    [UnboundLocalError], the flag stays set, the entity goes on reporting
    playing, and [_extra_attributes] is assigned on the way. *)
Theorem stream_update_when_record_is_gone `{Libraries} :
  let created := AmpliPiStream.__init__ radio [] base_path in
  let w := device [Ok (snapshot "playing" [radio]);
                   Ok (snapshot "playing" [])] [] in
  let first := AmpliPiStream.async_update (created, w) in
  let second := AmpliPiStream.async_update (snd first) in
  outcome first = Ok tt
  /\ AmpliPiStream.state (entity_after first) = STATE_PLAYING
  /\ outcome second = Raise UnboundLocalError
  /\ AmpliPiStream._last_update_successful (entity_after second) = true
  /\ AmpliPiStream.state (entity_after second) = STATE_PLAYING
  /\ AmpliPiStream._extra_attributes (entity_after first)
     = amplipi_source_id None
  /\ AmpliPiStream._extra_attributes (entity_after second)
     = amplipi_source_id (Some 0)
  /\ World.requests (world_after second) = [get_status; get_status].
Proof. repeat split. Qed.

(** ** Availability of zones and groups *)

Lemma existsb_enabled_member (zone_ids : list Z) (zones : list Zone.t) :
  existsb (fun zone_id =>
             existsb (AmpliPiZone.enabled_member zone_id) zones) zone_ids
  = true
  <-> exists zone_id state_zone,
        In zone_id zone_ids /\ In state_zone zones
        /\ Zone.id state_zone = zone_id /\ Zone.disabled state_zone = false.
Proof.
  rewrite existsb_exists. split.
  - intros (zone_id & Hin & He). apply existsb_exists in He.
    destruct He as (state_zone & Hz & Hm).
    unfold AmpliPiZone.enabled_member in Hm.
    apply andb_true_iff in Hm. destruct Hm as [Hid Hd].
    exists zone_id, state_zone. rewrite Z.eqb_eq in Hid.
    apply negb_true_iff in Hd. auto.
  - intros (zone_id & state_zone & Hin & Hz & Hid & Hd).
    exists zone_id. split; [exact Hin|]. apply existsb_exists.
    exists state_zone. split; [exact Hz|].
    unfold AmpliPiZone.enabled_member.
    rewrite Hd. apply andb_true_iff. split; [now apply Z.eqb_eq | reflexivity].
Qed.

(** X3: [_update_available], whose result [async_update] stores for the
    [available] property, answers for a zone entity [True] iff the zone
    record the entity holds is not disabled, and for a group entity [True]
    iff some zone of the fetched snapshot is one of the group's member ids
    and is not disabled; the group record has no say beyond its member
    ids, and with no enabled member the answer is [False]. *)
Theorem update_available_spec (e : AmpliPiZone.t) (w : World.t)
    (st : Status.t) :
  next_status w (Ok st) ->
  let r := AmpliPiZone._update_available (e, w) in
  (AmpliPiZone._is_group e = false ->
   forall zone, AmpliPiZone._zone e = Some zone ->
     outcome r = Ok (negb (Zone.disabled zone))
     /\ (outcome r = Ok true <-> Zone.disabled zone = false))
  /\ (AmpliPiZone._is_group e = true ->
      forall group, AmpliPiZone._group e = Some group ->
        exists b,
          outcome r = Ok b
          /\ (b = true <->
              exists zone_id state_zone,
                In zone_id (Group.zones group)
                /\ In state_zone (Status.zones st)
                /\ Zone.id state_zone = zone_id
                /\ Zone.disabled state_zone = false)
          /\ ((forall state_zone,
                 In state_zone (Status.zones st) ->
                 In (Zone.id state_zone) (Group.zones group) ->
                 Zone.disabled state_zone = true) ->
              b = false))
  /\ entity_after r = e
  /\ AmpliPiZone.available e = AmpliPiZone._available e.
Proof.
  unfold next_status.
  destruct e as [? ? g ? ? ? ? z gr ? ? ? ? ? ?], w; cbn. intros Hr.
  unfold AmpliPiZone._update_available. run. rewrite Hr. cbn.
  split; [|split; [|split; [destruct g, gr, z|]; reflexivity]].
  - intros -> zone ->. cbn. split; [reflexivity|].
    destruct (Zone.disabled zone); cbn; split; congruence.
  - intros -> group ->. cbn. eexists. split; [reflexivity|].
    split; [apply existsb_enabled_member|].
    intros Hall. apply not_true_is_false. intros Hb.
    apply existsb_enabled_member in Hb.
    destruct Hb as (zone_id & state_zone & Hin & Hz & Hid & Hd).
    subst zone_id. rewrite (Hall state_zone Hz Hin) in Hd. discriminate.
Qed.

Lemma update_available_spec_witness :
  let kitchen := Zone.mk 0 "Kitchen" (Some 0) (Some false) None true in
  let patio := Zone.mk 1 "Patio" (Some 0) (Some false) None false in
  let st := Status.mk [] [kitchen; patio] [] [] in
  next_status (device [Ok st] []) (Ok st)
  /\ (exists e,
        AmpliPiZone.__init__ (Some kitchen) None [] [] base_path = Ok e
        /\ outcome (AmpliPiZone._update_available (e, device [Ok st] []))
           = Ok false)
  /\ (exists e,
        AmpliPiZone.__init__ (Some patio) None [] [] base_path = Ok e
        /\ outcome (AmpliPiZone._update_available (e, device [Ok st] []))
           = Ok true).
Proof.
  intros kitchen patio st. split; [reflexivity|].
  split; eexists; (split; [reflexivity|]).
  - match goal with
    | |- outcome (AmpliPiZone._update_available (?e, ?w)) = _ =>
        exact (proj1 (proj1 (update_available_spec e w st eq_refl)
                        eq_refl kitchen eq_refl))
    end.
  - match goal with
    | |- outcome (AmpliPiZone._update_available (?e, ?w)) = _ =>
        exact (proj1 (proj1 (update_available_spec e w st eq_refl)
                        eq_refl patio eq_refl))
    end.
Defined.

(** X4: what a successful zone poll stores as [available]: the answer of
    [_update_available] called before [sync_state], that is, on the zone
    record cached by the previous synchronization, whatever the zone
    record of the new snapshot says. *)
Lemma zone_available_after_update `{Libraries} (e : AmpliPiZone.t)
    (w : World.t) (st st' : Status.t) (cached zone : Zone.t) :
  AmpliPiZone._is_group e = false ->
  AmpliPiZone._zone e = Some cached ->
  next_status w (Ok st) ->
  World.status_reply w (S (List.length (World.requests w))) = Ok st' ->
  next_filter (fun z => Zone.id z =? AmpliPiZone._id e) (Status.zones st)
  = Some zone ->
  AmpliPiZone.available (entity_after (AmpliPiZone.async_update (e, w)))
  = negb (Zone.disabled cached).
Proof.
  unfold next_status.
  destruct e as [? ? g ? ? ? ? z gr ? ? ? ? ? ?], w; cbn.
  intros -> -> Hr Hr' Hz.
  unfold AmpliPiZone.async_update, AmpliPiZone.fetch,
    AmpliPiZone._get_extra_attributes, AmpliPiZone._update_available,
    AmpliPiZone.sync_state, stream_id_of_input.
  run. rewrite Hr. cbn. rewrite Hz. cbn. rewrite Hr'. cbn.
  destruct (Zone.source_id zone) as [sid|]; cbn; [|reflexivity].
  destruct (next_filter _ (Status.sources st)) as [src|]; cbn; [|reflexivity].
  destruct (Source.input src) as [i|]; cbn; [|reflexivity].
  destruct (Py.contains "stream=" i && negb (Py.contains "stream=local" i));
    cbn.
  - destruct (Py.item (Py.split "=" i) 1) as [part|]; cbn; [|reflexivity].
    destruct (Py.int part); cbn; [|reflexivity].
    destruct (Source.info src); reflexivity.
  - destruct (Source.info src); reflexivity.
Qed.

Lemma zone_available_after_update_witness :
  let enabled := Zone.mk 0 "Kitchen" (Some 0) (Some false) None false in
  let disabled := Zone.mk 0 "Kitchen" (Some 0) (Some false) None true in
  let st := Status.mk [input_1 "playing"] [disabled] [] [radio] in
  exists e,
    AmpliPiZone.__init__ (Some enabled) None [] [] base_path = Ok e
    /\ AmpliPiZone.available
         (entity_after
            (AmpliPiZone.async_update
               (H := {| validators_url := fun _ => false |})
               (e, device [Ok st; Ok st] []))) = true.
Proof.
  intros enabled disabled st. eexists. split; [reflexivity|].
  match goal with
  | |- context [AmpliPiZone.async_update (?e, ?w)] =>
      exact (zone_available_after_update
               (H := {| validators_url := fun _ => false |})
               e w st st enabled disabled
               eq_refl eq_refl eq_refl eq_refl eq_refl)
  end.
Defined.

(** The same for a group: the member ids are those of the group record
    cached before this poll, the zones those of the fetch that
    [_update_available] makes itself. *)
Lemma group_available_after_update `{Libraries} (e : AmpliPiZone.t)
    (w : World.t) (st st1 st2 : Status.t) (cached group : Group.t) :
  AmpliPiZone._is_group e = true ->
  AmpliPiZone._group e = Some cached ->
  next_status w (Ok st) ->
  World.status_reply w (S (List.length (World.requests w))) = Ok st1 ->
  World.status_reply w (S (S (List.length (World.requests w)))) = Ok st2 ->
  next_filter (fun z => Group.id z =? AmpliPiZone._id e) (Status.groups st)
  = Some group ->
  AmpliPiZone.available (entity_after (AmpliPiZone.async_update (e, w)))
  = existsb (fun zone_id =>
               existsb (AmpliPiZone.enabled_member zone_id) (Status.zones st2))
            (Group.zones cached).
Proof.
  unfold next_status.
  destruct e as [? ? g ? ? ? ? z gr ? ? ? ? ? ?], w; cbn.
  intros -> -> Hr Hr1 Hr2 Hg.
  unfold AmpliPiZone.async_update, AmpliPiZone.fetch,
    AmpliPiZone._get_extra_attributes, AmpliPiZone._update_available,
    AmpliPiZone.sync_state, stream_id_of_input.
  run. rewrite Hr. cbn. rewrite Hg. cbn. rewrite Hr1. cbn. rewrite Hr2. cbn.
  destruct (Status.sources st) as [|s0 rest] eqn:Es; cbn; [reflexivity|].
  match goal with
  | |- context [if ?c then Some s0 else ?f] =>
      destruct (if c then Some s0 else f) as [src|]; cbn; [|reflexivity]
  end.
  destruct (Source.input src) as [i|]; cbn; [|reflexivity].
  destruct (Py.contains "stream=" i && negb (Py.contains "stream=local" i));
    cbn.
  - destruct (Py.item (Py.split "=" i) 1) as [part|]; cbn; [|reflexivity].
    destruct (Py.int part); cbn; [|reflexivity].
    destruct (Source.info src); reflexivity.
  - destruct (Source.info src); reflexivity.
Qed.

(** X5: the fetches that a zone update makes after its [try] block are not
    guarded: when the one in [_update_available] raises, the exception
    leaves [async_update] after two requests and the flag keeps its
    value. *)
Lemma zone_update_later_fetch_fails `{Libraries} (e : AmpliPiZone.t)
    (w : World.t) (st : Status.t) (cached zone : Zone.t) (ex : exn) :
  AmpliPiZone._is_group e = false ->
  AmpliPiZone._zone e = Some cached ->
  next_status w (Ok st) ->
  World.status_reply w (S (List.length (World.requests w))) = Raise ex ->
  next_filter (fun z => Zone.id z =? AmpliPiZone._id e) (Status.zones st)
  = Some zone ->
  let r := AmpliPiZone.async_update (e, w) in
  outcome r = Raise ex
  /\ AmpliPiZone._last_update_successful (entity_after r)
     = AmpliPiZone._last_update_successful e
  /\ World.requests (world_after r)
     = get_status :: get_status :: World.requests w.
Proof.
  unfold next_status.
  destruct e as [? ? g ? ? ? ? z gr ? ? ? ? ? ?], w; cbn.
  intros -> -> Hr Hr' Hz.
  unfold AmpliPiZone.async_update, AmpliPiZone.fetch,
    AmpliPiZone._get_extra_attributes, AmpliPiZone._update_available.
  run. rewrite Hr. cbn. rewrite Hz. cbn. rewrite Hr'. repeat split.
Qed.

Lemma zone_update_later_fetch_fails_witness :
  let kitchen := Zone.mk 0 "Kitchen" (Some 0) (Some false) None false in
  let st := Status.mk [input_1 "playing"] [kitchen] [] [radio] in
  exists e,
    AmpliPiZone.__init__ (Some kitchen) None [] [] base_path = Ok e
    /\ outcome (AmpliPiZone.async_update
                  (H := {| validators_url := fun _ => false |})
                  (e, device [Ok st] [])) = Raise ClientError.
Proof.
  intros kitchen st. eexists. split; [reflexivity|].
  match goal with
  | |- context [AmpliPiZone.async_update (?e, ?w)] =>
      exact (proj1 (zone_update_later_fetch_fails
                      (H := {| validators_url := fun _ => false |})
                      e w st kitchen kitchen ClientError
                      eq_refl eq_refl eq_refl eq_refl eq_refl))
  end.
Defined.

(** C2 (the code at the failing input): a zone entity created from an
    enabled zone is polled from a snapshot in which the zone is disabled.
    After the poll the cached zone is the disabled one and [_enabled],
    computed in the same poll from the fetched zone, is [False], yet
    [available] is [True]: [_update_available] ran before [sync_state], on
    the zone record of the previous poll.  A second poll from the same
    snapshot gives [False].  The other way round, an entity created from a
    disabled zone reports unavailable after a poll that finds it enabled;
    and a group created with member zone 0 reports unavailable after a poll
    in which its only member is zone 1, enabled. *)
Theorem available_lags_one_poll `{Libraries} :
  let enabled_kitchen := Zone.mk 0 "Kitchen" (Some 0) (Some false) None false in
  let disabled_kitchen := Zone.mk 0 "Kitchen" (Some 0) (Some false) None true in
  let patio := Zone.mk 1 "Patio" (Some 0) (Some false) None false in
  let now_disabled :=
    Status.mk [input_1 "playing"] [disabled_kitchen] [] [radio] in
  let now_enabled :=
    Status.mk [input_1 "playing"] [enabled_kitchen] [] [radio] in
  let downstairs zones :=
    Group.mk 100 "Downstairs" (Some 0) zones (Some false) None in
  let regrouped :=
    Status.mk [input_1 "playing"] [disabled_kitchen; patio]
              [downstairs [1]] [radio] in
  (exists created,
     AmpliPiZone.__init__ (Some enabled_kitchen) None [radio]
                          [input_1 "playing"] base_path = Ok created
     /\ let first :=
          AmpliPiZone.async_update
            (created, device [Ok now_disabled; Ok now_disabled;
                              Ok now_disabled; Ok now_disabled] []) in
        let second := AmpliPiZone.async_update (snd first) in
        outcome first = Ok tt
        /\ AmpliPiZone._zone (entity_after first) = Some disabled_kitchen
        /\ AmpliPiZone._enabled (entity_after first) = false
        /\ AmpliPiZone.available (entity_after first) = true
        /\ outcome second = Ok tt
        /\ AmpliPiZone.available (entity_after second) = false)
  /\ (exists created,
        AmpliPiZone.__init__ (Some disabled_kitchen) None [radio]
                             [input_1 "playing"] base_path = Ok created
        /\ let first :=
             AmpliPiZone.async_update
               (created, device [Ok now_enabled; Ok now_enabled] []) in
           outcome first = Ok tt
           /\ AmpliPiZone._zone (entity_after first) = Some enabled_kitchen
           /\ AmpliPiZone.available (entity_after first) = false)
  /\ (exists created,
        AmpliPiZone.__init__ None (Some (downstairs [0])) [radio]
                             [input_1 "playing"] base_path = Ok created
        /\ let first :=
             AmpliPiZone.async_update
               (created, device [Ok regrouped; Ok regrouped; Ok regrouped]
                                []) in
           outcome first = Ok tt
           /\ AmpliPiZone._group (entity_after first) = Some (downstairs [1])
           /\ AmpliPiZone.available (entity_after first) = false).
Proof.
  repeat split; eexists; (split; [reflexivity|]); repeat split.
Qed.

(** ** The stream entity *)

(** X6: the stream record cached by a stream entity is never [None]:
    [__init__] sets it and [async_update] keeps or replaces it, whatever
    the device answers. *)
Lemma stream_record_cached `{Libraries} :
  (forall stream sources path,
     AmpliPiStream._stream (AmpliPiStream.__init__ stream sources path)
     <> None)
  /\ (forall e w,
        AmpliPiStream._stream e <> None ->
        AmpliPiStream._stream
          (entity_after (AmpliPiStream.async_update (e, w))) <> None).
Proof.
  split; [discriminate|].
  intros [[cached|] ? ? ? ? ? ? ? ? ? ? ?] [sr so ss rq lg] Hc;
    [clear Hc | contradiction].
  unfold AmpliPiStream.async_update, AmpliPiStream.fetch,
    AmpliPiStream._get_extra_attributes, AmpliPiStream._update_available,
    AmpliPiStream.sync_state.
  run. destruct (sr (Datatypes.length rq)) as [st|ex]; cbn; [|discriminate].
  destruct (next_filter _ (Status.streams st)) as [stream|]; cbn;
    [|discriminate].
  destruct (find _ (Status.sources st)) as [src|]; cbn.
  - destruct (Source.info src); discriminate.
  - discriminate.
Qed.

Lemma find_input_none (sources : list Source.t) (input : string) :
  (forall src, In src sources -> Source.input src <> Some input) ->
  find (fun src => Py.eq_opt_str (Source.input src) (Some input)) sources
  = None.
Proof.
  intros Hall. destruct (find _ sources) as [src|] eqn:E; [|reflexivity].
  apply find_some in E. destruct E as [Hin He].
  exfalso. apply (Hall src Hin).
  destruct (Source.input src) as [i|]; [|discriminate].
  cbn in He. apply String.eqb_eq in He. now subst.
Qed.

(** C4: a stream entity that holds a stream record is updated from a
    snapshot that has the entity's stream record and no source whose input
    is ["stream={id}"]: the update returns, the entity reports idle, has no
    current source and is available.  [_update_available] answers [False]
    only for an entity without a stream record. *)
Theorem stream_update_without_source `{Libraries} (e : AmpliPiStream.t)
    (w : World.t) (st : Status.t) (cached stream : Stream.t) :
  AmpliPiStream._stream e = Some cached ->
  next_status w (Ok st) ->
  next_filter (fun x => Stream.id x =? AmpliPiStream._id e)
              (Status.streams st) = Some stream ->
  (forall src, In src (Status.sources st) ->
     Source.input src <> Some ("stream=" ++ Py.str (AmpliPiStream._id e))) ->
  let r := AmpliPiStream.async_update (e, w) in
  outcome r = Ok tt
  /\ AmpliPiStream.state (entity_after r) = STATE_IDLE
  /\ AmpliPiStream._current_source (entity_after r) = None
  /\ AmpliPiStream.available (entity_after r) = true
  /\ AmpliPiStream._stream (entity_after r) = Some (process_stream_name stream)
  /\ (forall e' w',
        outcome (AmpliPiStream._update_available (e', w')) = Ok false ->
        AmpliPiStream._stream e' = None).
Proof.
  unfold next_status.
  destruct e as [sc ? ? ? ? id ? ? ? ? ? ?], w as [sr so ss rq lg]; cbn.
  intros -> Hr Hs Hn.
  assert (Hid : Stream.id stream = id).
  { apply find_some in Hs. now apply Z.eqb_eq. }
  apply find_input_none in Hn. rewrite <- Hid in Hn.
  unfold AmpliPiStream.async_update, AmpliPiStream.fetch,
    AmpliPiStream._get_extra_attributes, AmpliPiStream._update_available,
    AmpliPiStream.sync_state.
  run. rewrite Hr. cbn. rewrite Hs. cbn. rewrite Hn. cbn.
  repeat (split; [reflexivity|]).
  intros [[c|] ? ? ? ? ? ? ? ? ? ? ?] w'; cbn; [discriminate | reflexivity].
Qed.

Lemma stream_update_without_source_witness :
  let st := Status.mk [Source.mk 0 "Input 1" (Some "local") None;
                       Source.mk 1 "Input 2" (Some "stream=1001") None]
                      [] [] [radio] in
  let r := AmpliPiStream.async_update
             (H := {| validators_url := fun _ => false |})
             (AmpliPiStream.__init__ radio [] base_path,
              device [Ok st] []) in
  outcome r = Ok tt
  /\ AmpliPiStream.state (entity_after r) = STATE_IDLE
  /\ AmpliPiStream._current_source (entity_after r) = None
  /\ AmpliPiStream.available (entity_after r) = true.
Proof.
  intros st r.
  assert (Hn : forall src, In src (Status.sources st) ->
                           Source.input src <> Some ("stream=" ++ Py.str 1000)).
  { intros src [<-|[<-|[]]]; discriminate. }
  pose proof (stream_update_without_source
                (H := {| validators_url := fun _ => false |})
                (AmpliPiStream.__init__ radio [] base_path)
                (device [Ok st] []) st _ radio eq_refl eq_refl eq_refl Hn)
    as (H1 & H2 & H3 & H4 & _).
  repeat split; assumption.
Defined.

(** ** [find_source] *)

Lemma adopt_last_free (sources : list (option Source.t))
    (s : AmpliPiStream.t) :
  let adopt s source :=
    if AmpliPiStream.is_free source
    then s <| AmpliPiStream._current_source := source |>
    else s in
  match find AmpliPiStream.is_free (rev sources) with
  | Some source =>
      fold_left adopt sources s
      = s <| AmpliPiStream._current_source := source |>
  | None => fold_left adopt sources s = s
  end.
Proof.
  intros adopt.
  induction sources as [|x l IH] using rev_ind; [reflexivity|].
  rewrite fold_left_app, rev_app_distr.
  cbn [rev app find fold_left].
  assert (Hx : forall t, adopt t x
                         = if AmpliPiStream.is_free x
                           then t <| AmpliPiStream._current_source := x |>
                           else t) by reflexivity.
  rewrite Hx. clear Hx.
  destruct (AmpliPiStream.is_free x) eqn:E; [|exact IH].
  destruct (find AmpliPiStream.is_free (rev l)); rewrite IH;
    destruct s; reflexivity.
Qed.

(** An attached entity is left alone and nothing is requested. *)
Lemma find_source_attached (e : AmpliPiStream.t) (w : World.t)
    (src : Source.t) :
  AmpliPiStream._current_source e = Some src ->
  AmpliPiStream.find_source (e, w) = (Ok tt, (e, w)).
Proof.
  intros Hc. unfold AmpliPiStream.find_source. run. now rewrite Hc.
Qed.

(** X7: [find_source] on an unattached stream entity, when the device
    lists no free source: the call raises and the entity is unchanged. *)
Lemma find_source_all_in_use (e : AmpliPiStream.t) (w : World.t)
    (sources : list (option Source.t)) :
  AmpliPiStream._current_source e = None ->
  World.sources_reply w (List.length (World.requests w)) = Ok sources ->
  (forall source, In source sources -> AmpliPiStream.is_free source = false) ->
  let r := AmpliPiStream.find_source (e, w) in
  outcome r = Raise (Exception AmpliPiStream.all_in_use)
  /\ entity_after r = e.
Proof.
  destruct e as [? cs ? ? ? ? ? ? ? ? ? ?], w as [sr so ss rq lg]; cbn.
  intros -> Hr Hall. unfold AmpliPiStream.find_source. run. rewrite Hr. cbn.
  match goal with
  | |- context [fold_left ?f sources ?s] =>
      pose proof (adopt_last_free sources s) as Ha; cbv zeta in Ha
  end.
  destruct (find AmpliPiStream.is_free (rev sources)) as [x|] eqn:E.
  - apply find_some in E. destruct E as [Hin Hf].
    apply in_rev in Hin. now rewrite (Hall x Hin) in Hf.
  - cbn in Ha. rewrite Ha. cbn. split; reflexivity.
Qed.

Lemma find_source_all_in_use_witness :
  let e := AmpliPiStream.__init__ radio [] base_path in
  let w := device [] [Some (input_1 "playing"); None] in
  outcome (AmpliPiStream.find_source (e, w))
  = Raise (Exception AmpliPiStream.all_in_use)
  /\ entity_after (AmpliPiStream.find_source (e, w)) = e.
Proof.
  intros e w.
  apply (find_source_all_in_use e w [Some (input_1 "playing"); None]
           eq_refl eq_refl).
  intros source [<-|[<-|[]]]; reflexivity.
Defined.

(** X8: [find_source] on an unattached stream entity adopts the last free
    source of the device's list: the loop has no [break]. *)
Lemma find_source_adopts_last (e : AmpliPiStream.t) (w : World.t)
    (sources : list (option Source.t)) (src : Source.t) :
  AmpliPiStream._current_source e = None ->
  World.sources_reply w (List.length (World.requests w)) = Ok sources ->
  find AmpliPiStream.is_free (rev sources) = Some (Some src) ->
  let r := AmpliPiStream.find_source (e, w) in
  outcome r = Ok tt
  /\ entity_after r = e <| AmpliPiStream._current_source := Some src |>.
Proof.
  destruct e as [? cs ? ? ? ? ? ? ? ? ? ?], w as [sr so ss rq lg]; cbn.
  intros -> Hr Hf. unfold AmpliPiStream.find_source. run. rewrite Hr. cbn.
  match goal with
  | |- context [fold_left ?f sources ?s] =>
      pose proof (adopt_last_free sources s) as Ha; cbv zeta in Ha
  end.
  rewrite Hf in Ha. cbn in Ha. rewrite Ha. cbn. split; reflexivity.
Qed.

Lemma find_source_adopts_last_witness :
  let e := AmpliPiStream.__init__ radio [] base_path in
  let free_0 := Source.mk 0 "Input 1" (Some "") None in
  let free_1 := Source.mk 1 "Input 2" None None in
  let w := device [] [Some free_0; Some free_1] in
  outcome (AmpliPiStream.find_source (e, w)) = Ok tt
  /\ AmpliPiStream._current_source (entity_after (AmpliPiStream.find_source (e, w)))
     = Some free_1.
Proof.
  intros e free_0 free_1 w.
  pose proof (find_source_adopts_last e w [Some free_0; Some free_1] free_1
                eq_refl eq_refl eq_refl) as (H1 & H2).
  split; [exact H1|]. rewrite H2. reflexivity.
Defined.

(** C3 (the code at the failing input): with sources 0, 2 and 3 free and
    source 1 in use, an unattached stream entity adopts source 3, the last
    free one, not source 0, the first. *)
Theorem find_source_adopts_the_last_free_source :
  let free_0 := Source.mk 0 "Input 1" (Some "") None in
  let busy_1 := Source.mk 1 "Input 2" (Some "stream=1001") None in
  let free_2 := Source.mk 2 "Input 3" (Some "None") None in
  let free_3 := Source.mk 3 "Input 4" None None in
  let r := AmpliPiStream.find_source
             (AmpliPiStream.__init__ radio [] base_path,
              device [] [Some free_0; Some busy_1; Some free_2; Some free_3]) in
  outcome r = Ok tt
  /\ AmpliPiStream._current_source (entity_after r) = Some free_3
  /\ AmpliPiStream._current_source (entity_after r) <> Some free_0.
Proof. repeat split. discriminate. Qed.

(** ** [select_source] on a source entity *)

(** Processing a name touches neither the entity nor the device; it may
    log. *)
Lemma process_stream_id_keeps_entity (label : string) (e : AmpliPiSource.t)
    (w : World.t) :
  entity_after (AmpliPiSource.process_stream_id label (e, w)) = e
  /\ World.requests (world_after (AmpliPiSource.process_stream_id label (e, w)))
     = World.requests w.
Proof.
  destruct w as [sr so ss rq lg].
  unfold AmpliPiSource.process_stream_id. run.
  destruct (Py.first _) as [c|]; cbn; [|split; reflexivity].
  destruct (Py.int c) as [n|]; cbn; [|split; reflexivity].
  destruct (n =? 1); [split; reflexivity|].
  destruct (n =? 9); split; reflexivity.
Qed.

(** So does the search. *)
Lemma find_stream_keeps_entity `{Libraries} (source : string)
    (streams : list Stream.t) (e : AmpliPiSource.t) (w : World.t) :
  entity_after (AmpliPiSource.find_stream source streams (e, w)) = e
  /\ World.requests
       (world_after (AmpliPiSource.find_stream source streams (e, w)))
     = World.requests w.
Proof.
  revert w. induction streams as [|z rest IH]; intros w;
    [split; reflexivity|].
  cbn [AmpliPiSource.find_stream]. unfold bind.
  pose proof (process_stream_id_keeps_entity (Stream.name z) e w) as P1.
  destruct (AmpliPiSource.process_stream_id (Stream.name z) (e, w))
    as [[a|ex] [e1 w1]]; unfold entity_after, world_after in P1;
    cbn [fst snd] in P1; destruct P1 as [-> R1];
    [|split; [reflexivity | exact R1]].
  pose proof (process_stream_id_keeps_entity source e w1) as P2.
  destruct (AmpliPiSource.process_stream_id source (e, w1))
    as [[b|ex] [e2 w2]]; unfold entity_after, world_after in P2;
    cbn [fst snd] in P2; destruct P2 as [-> R2];
    [|split; [reflexivity | cbn; congruence]].
  destruct (Py.eq_opt_str a b).
  - split; [reflexivity | cbn; congruence].
  - destruct (IH w2) as [IH1 IH2]. split; [exact IH1 | congruence].
Qed.

(** X9: [select_source] on a source entity with a label that is neither
    the source's name nor ["None"]: when the search of the stream cache
    ends without a match and without raising, the call logs a warning and
    does nothing else: no request, no change of the entity. *)
Lemma select_source_no_match `{Libraries} (source : string)
    (e : AmpliPiSource.t) (w : World.t) :
  match AmpliPiSource._source e with
  | Some src => Source.name src <> source
  | None => True
  end ->
  source <> "None" ->
  outcome (AmpliPiSource.find_stream source (AmpliPiSource._streams e) (e, w))
  = Ok None ->
  let r := AmpliPiSource.async_select_source source (e, w) in
  outcome r = Ok tt
  /\ entity_after r = e
  /\ World.requests (world_after r) = World.requests w
  /\ hd_error (World.log (world_after r))
     = Some (WARNING,
             "Select Source called but a match could not be found in the stream cache").
Proof.
  intros Hown Hnone Hf.
  pose proof (find_stream_keeps_entity source (AmpliPiSource._streams e) e w)
    as [Ke Kr].
  assert (Hrun :
    AmpliPiSource.async_select_source source (e, w)
    = (Ok tt,
       (e, (world_after (AmpliPiSource.find_stream
                           source (AmpliPiSource._streams e) (e, w)))
             <| World.log ::=
                  cons (WARNING,
                        "Select Source called but a match could not be found in the stream cache") |>))).
  { unfold AmpliPiSource.async_select_source, bind, self. cbn [fst snd].
    replace (match AmpliPiSource._source e with
             | Some src => (Source.name src =? source)%string
             | None => false
             end) with false.
    2:{ destruct (AmpliPiSource._source e) as [src|]; [|reflexivity].
        symmetry. now apply String.eqb_neq. }
    apply String.eqb_neq in Hnone. rewrite Hnone.
    destruct (AmpliPiSource.find_stream
                source (AmpliPiSource._streams e) (e, w))
      as [[[stream|]|ex] [e1 w1]]; try discriminate Hf.
    unfold entity_after in Ke. cbn in Ke. now subst e1. }
  cbv zeta. rewrite Hrun. unfold outcome, entity_after, world_after.
  cbn [fst snd].
  destruct (AmpliPiSource.find_stream source (AmpliPiSource._streams e) (e, w))
    as [r1 [e1 w1]]. unfold world_after in *. cbn [fst snd] in *.
  destruct w1. cbn in *. repeat split. exact Kr.
Qed.

Lemma select_source_no_match_witness :
  let e := AmpliPiSource.__init__ (input_1 "playing") [radio] base_path in
  let r := AmpliPiSource.async_select_source
             (H := {| validators_url := fun _ => false |})
             "AmpliPi Stream 1001: Jazz" (e, device [] []) in
  outcome r = Ok tt
  /\ entity_after r = e
  /\ World.requests (world_after r) = [].
Proof.
  intros e r.
  assert (Hown : match AmpliPiSource._source e with
                 | Some src => Source.name src <> "AmpliPi Stream 1001: Jazz"
                 | None => True
                 end) by (cbn; discriminate).
  assert (Hnone : "AmpliPi Stream 1001: Jazz" <> "None") by discriminate.
  pose proof (select_source_no_match
                (H := {| validators_url := fun _ => false |})
                "AmpliPi Stream 1001: Jazz" e (device [] [])
                Hown Hnone eq_refl)
    as (H1 & H2 & H3 & _).
  repeat split; assumption.
Defined.

(** C7 (the code at the failing input): the source entity "Input 1" has
    stream 1000 in its cache and is asked for the label ["Radio"], which is
    neither its own name nor ["None"] and names no stream.  The call raises
    [IndexError] where the specification asks for a warning and no
    exception. *)
Theorem select_source_label_without_digit `{Libraries} (w : World.t) :
  let e := AmpliPiSource.__init__ (input_1 "stopped") [radio] base_path in
  let r := AmpliPiSource.async_select_source "Radio" (e, w) in
  AmpliPiSource._streams e
  = [Stream.mk 1000 "AmpliPi Stream 1000: Radio" "internetradio"]
  /\ outcome r = Raise IndexError
  /\ entity_after r = e
  /\ world_after r = w.
Proof. repeat split. Qed.

(** * Further properties of the entities *)

(** ** Decimal text and the input descriptor *)


Lemma int_digits_uint (d : Decimal.uint) (acc : Z) (b : bool) :
  d <> Decimal.Nil \/ b = true ->
  exists v, Py.int_digits acc b (list_ascii_of_string (NilEmpty.string_of_uint d))
            = Some v
            /\ (acc = 0 -> v = Z.of_uint d)
            /\ (forall p, acc = Z.pos p -> v = Z.pos (Pos.of_uint_acc d p)).
Proof.
  revert acc b. induction d; intros acc b Hd.
  - destruct Hd as [Hd| ->]; [congruence|]. cbn. exists acc.
    split; [reflexivity|].
    split; [intros ->; reflexivity | intros p ->; reflexivity].
  - digit_step IHd acc.
  - digit_step IHd acc.
  - digit_step IHd acc.
  - digit_step IHd acc.
  - digit_step IHd acc.
  - digit_step IHd acc.
  - digit_step IHd acc.
  - digit_step IHd acc.
  - digit_step IHd acc.
  - digit_step IHd acc.
Qed.


Lemma int_digits_string_of_uint (d : Decimal.uint) :
  Py.int_digits 0 false (list_ascii_of_string (NilZero.string_of_uint d))
  = Some (Z.of_uint d).
Proof.
  assert (G : d <> Decimal.Nil ->
              Py.int_digits 0 false
                (list_ascii_of_string (NilEmpty.string_of_uint d))
              = Some (Z.of_uint d)).
  { intros Hd.
    destruct (int_digits_uint d 0 false (or_introl Hd)) as (v & Hv & H0 & _).
    rewrite Hv. f_equal. exact (H0 eq_refl). }
  destruct d; try (apply G; discriminate). reflexivity.
Qed.

Lemma strip_without_space (l : list ascii) :
  Forall (fun c => Py.is_space c = false) l -> Py.strip l = l.
Proof.
  intros Hl. unfold Py.strip.
  assert (L : forall m, Forall (fun c => Py.is_space c = false) m ->
                        Py.lstrip m = m).
  { intros [|c m] Hm; [reflexivity|]. cbn [Py.lstrip].
    now rewrite (Forall_inv Hm). }
  rewrite (L l Hl). rewrite (L (rev l)); [apply rev_involutive|].
  now apply Forall_rev.
Qed.

Lemma digit_not_space (c : ascii) :
  Py.is_digit c = true ->
  Py.is_space c = false /\ Ascii.eqb c "-" = false /\ Ascii.eqb c "+" = false
  /\ Ascii.eqb c "=" = false.
Proof.
  destruct c as [[] [] [] [] [] [] [] []]; intros Hd;
    try discriminate Hd; repeat split.
Qed.

Lemma str_no_space (n : Z) :
  Forall (fun c => Py.is_space c = false) (list_ascii_of_string (Py.str n)).
Proof.
  apply Forall_forall. intros c Hin. apply str_chars in Hin.
  destruct Hin as [Hd| ->]; [|reflexivity].
  now apply digit_not_space.
Qed.

(** [int(str(n)) == n]. *)
Lemma int_str (n : Z) : Py.int (Py.str n) = Ok n.
Proof.
  unfold Py.int. rewrite (strip_without_space _ (str_no_space n)).
  pose proof (DecimalZ.of_to n) as Hn.
  unfold Py.str. destruct (Z.to_int n) as [d|d]; cbn [NilZero.string_of_int].
  - pose proof (int_digits_string_of_uint d) as Hd.
    cbn [Z.of_int] in Hn. rewrite Hn in Hd.
    destruct (list_ascii_of_string (NilZero.string_of_uint d)) as [|c l] eqn:E;
      [discriminate Hd|].
    assert (Hc : Py.is_digit c = true).
    { cbn [Py.int_digits] in Hd. destruct (Py.is_digit c); [reflexivity|].
      rewrite andb_false_r in Hd. discriminate. }
    destruct (digit_not_space c Hc) as (_ & -> & -> & _).
    now rewrite Hd.
  - cbn [list_ascii_of_string].
    change (Ascii.eqb "-" "-") with true. cbv iota.
    rewrite int_digits_string_of_uint. cbn [option_map].
    cbn [Z.of_int] in Hn. now rewrite Hn.
Qed.

Lemma prefix_absent_head (c : ascii) (p t : string) :
  ~ In c (list_ascii_of_string t) -> String.prefix (String c p) t = false.
Proof.
  destruct t as [|d t]; [reflexivity|]. cbn. intros Hn.
  destruct (Ascii.ascii_dec c d) as [->|_]; [|reflexivity].
  exfalso. apply Hn. now left.
Qed.

Lemma contains_absent_head (c : ascii) (p t : string) :
  ~ In c (list_ascii_of_string t) -> Py.contains (String c p) t = false.
Proof.
  induction t as [|d t IH]; intros Hn; [reflexivity|].
  cbn [Py.contains]. rewrite (prefix_absent_head _ _ _ Hn).
  apply IH. intros Hin. apply Hn. now right.
Qed.

Lemma split_without_sep (sep : ascii) (s : string) :
  ~ In sep (list_ascii_of_string s) -> Py.split sep s = [s].
Proof.
  induction s as [|c s IH]; intros Hn; [reflexivity|].
  cbn [Py.split]. destruct (Ascii.eqb_spec c sep) as [->|_].
  - exfalso. apply Hn. now left.
  - rewrite IH; [reflexivity|]. intros Hin. apply Hn. now right.
Qed.

Lemma str_lacks (n : Z) (c : ascii) :
  Py.is_digit c = false -> c <> "-"%char ->
  ~ In c (list_ascii_of_string (Py.str n)).
Proof.
  intros Hd Hm Hin. apply str_chars in Hin. destruct Hin; congruence.
Qed.

Lemma stream_id_of_input_str {Self} (n : Z) (st : Self * World.t) :
  stream_id_of_input (Some ("stream=" ++ Py.str n)) st = (Ok (Some n), st).
Proof.
  unfold stream_id_of_input.
  assert (C1 : Py.contains "stream=" ("stream=" ++ Py.str n) = true).
  { cbn. repeat (destruct (Ascii.ascii_dec _ _); [|congruence]).
    now destruct (Py.str n). }
  assert (C2 : Py.contains "stream=local" ("stream=" ++ Py.str n) = false).
  { pose proof (str_lacks n "l" eq_refl ltac:(discriminate)) as Hl.
    pose proof (str_lacks n "s" eq_refl ltac:(discriminate)) as Hs.
    cbn [append Py.contains String.prefix].
    repeat match goal with
           | |- context [Ascii.ascii_dec ?a ?b] =>
               destruct (Ascii.ascii_dec a b); [|try congruence]
           end; try discriminate.
    rewrite (prefix_absent_head _ _ _ Hl).
    now rewrite (contains_absent_head _ _ _ Hs). }
  rewrite C1, C2. cbn [andb negb].
  assert (Sp : Py.split "=" ("stream=" ++ Py.str n) = ["stream"; Py.str n]).
  { cbn. now rewrite (split_without_sep _ _
                        (str_lacks n "=" eq_refl ltac:(discriminate))). }
  unfold bind, lift, ret. rewrite Sp. cbn [Py.item nth_error].
  now rewrite int_str.
Qed.

(** X10: the input descriptor that a stream entity sends for its id,
    ["stream={id}"], is read back by the source and zone synchronizers as
    that id, for every integer id; ["stream=local"] and a descriptor
    without ["stream="] give no stream id, and an absent input raises
    [TypeError]. *)
Theorem stream_input_round_trip {Self} (st : Self * World.t) :
  (forall n : Z,
     stream_id_of_input (Some ("stream=" ++ Py.str n)) st = (Ok (Some n), st))
  /\ stream_id_of_input (Some "stream=local") st = (Ok None, st)
  /\ (forall i, Py.contains "stream=" i = false ->
                stream_id_of_input (Some i) st = (Ok None, st))
  /\ stream_id_of_input None st = (Raise TypeError, st).
Proof.
  split; [intros n; apply stream_id_of_input_str|].
  split; [reflexivity|]. split; [|reflexivity].
  intros i Hc. unfold stream_id_of_input. now rewrite Hc.
Qed.

(** ** Polling a source *)

Section SourcePoll.
Context `{Libraries}.

(** X11: a source entity polled with a snapshot in which its source has
    the input ["stream={n}"]: the poll succeeds with one request, sets the
    flag, adopts the source record and the normalized stream list, and
    the current stream is the first cached stream with id [n]; the
    [source] property is that stream's name, or ["None"] when the snapshot
    has no such stream. *)
Lemma source_poll_attached (e : AmpliPiSource.t) (w : World.t)
    (src source : Source.t) (st : Status.t) (n : Z) :
  AmpliPiSource._source e = Some src ->
  next_status w (Ok st) ->
  next_filter (fun z => Source.id z =? Source.id src) (Status.sources st)
  = Some source ->
  Source.input source = Some ("stream=" ++ Py.str n) ->
  let r := AmpliPiSource.async_update (e, w) in
  let current :=
    next_filter (fun z => Stream.id z =? n)
                (process_stream_names (Status.streams st)) in
  outcome r = Ok tt
  /\ AmpliPiSource._last_update_successful (entity_after r) = true
  /\ AmpliPiSource._source (entity_after r) = Some source
  /\ AmpliPiSource._streams (entity_after r)
     = process_stream_names (Status.streams st)
  /\ AmpliPiSource._current_stream (entity_after r) = current
  /\ AmpliPiSource.source (entity_after r)
     = match current with
       | Some stream => Stream.name stream
       | None => "None"
       end
  /\ World.requests (world_after r) = get_status :: World.requests w.
Proof.
  unfold next_status. destruct e, w; cbn. intros -> Hr Hf Hi.
  cbn [String.append] in Hi.
  unfold AmpliPiSource.async_update, AmpliPiSource.sync_state.
  unfold bind, try, self, attr, ret, logger, await_get_status, call, assign.
  cbn [fst snd]. cbn -[stream_id_of_input process_stream_names Py.str String.append].
  rewrite Hr. cbn -[stream_id_of_input process_stream_names Py.str String.append].
  rewrite Hf. cbn -[stream_id_of_input process_stream_names Py.str String.append].
  rewrite Hi.
  pose proof (stream_id_of_input_str (Self := AmpliPiSource.t) n) as Hrt.
  cbn [String.append] in Hrt. rewrite Hrt. clear Hrt.
  cbn -[process_stream_names Py.str String.append].
  unfold AmpliPiSource.source.
  destruct (Source.info source);
    cbn -[process_stream_names Py.str String.append]; rewrite Hi;
    cbn -[process_stream_names Py.str String.append]; repeat split.
Qed.

(** X12: a source entity polled with a snapshot in which its source has an
    input without ["stream="]: no current stream; the [source] property is
    the source's name for the input ["local"] and ["None"] for any other;
    the state is not unknown. *)
Lemma source_poll_detached (e : AmpliPiSource.t) (w : World.t)
    (src source : Source.t) (st : Status.t) (i : string) :
  AmpliPiSource._source e = Some src ->
  next_status w (Ok st) ->
  next_filter (fun z => Source.id z =? Source.id src) (Status.sources st)
  = Some source ->
  Source.input source = Some i ->
  Py.contains "stream=" i = false ->
  let r := AmpliPiSource.async_update (e, w) in
  outcome r = Ok tt
  /\ AmpliPiSource._last_update_successful (entity_after r) = true
  /\ AmpliPiSource._source (entity_after r) = Some source
  /\ AmpliPiSource._current_stream (entity_after r) = None
  /\ AmpliPiSource.source (entity_after r)
     = (if String.eqb i "local" then Source.name source else "None")
  /\ AmpliPiSource.state (entity_after r) <> STATE_UNKNOWN
  /\ World.requests (world_after r) = get_status :: World.requests w.
Proof.
  unfold next_status. destruct e, w; cbn. intros -> Hr Hf Hi Hc.
  unfold AmpliPiSource.async_update, AmpliPiSource.sync_state,
    stream_id_of_input.
  unfold bind, try, self, attr, ret, logger, await_get_status, call, assign.
  cbn [fst snd]. cbn -[process_stream_names Py.contains].
  rewrite Hr. cbn -[process_stream_names Py.contains].
  rewrite Hf. cbn -[process_stream_names Py.contains].
  rewrite Hi, Hc. cbn -[process_stream_names Py.contains].
  unfold AmpliPiSource.source, AmpliPiSource.state.
  destruct (Source.info source) as [info|] eqn:Ei;
    cbn -[process_stream_names Py.contains]; rewrite Hi, ?Ei;
    cbn -[process_stream_names Py.contains]; repeat split;
    try discriminate.
  destruct (SourceInfo.state info) as [t|]; [|discriminate].
  unfold state_of_info_state.
  destruct (Py.contains t "paused"), (Py.contains t "playing"),
    (Py.contains t "stopped"); discriminate.
Qed.
End SourcePoll.

Lemma source_poll_attached_witness :
  let r := AmpliPiSource.async_update
             (H := {| validators_url := fun _ => false |})
             (AmpliPiSource.__init__ (input_1 "playing") [] base_path,
              device [Ok (snapshot "playing" [radio])] []) in
  outcome r = Ok tt
  /\ AmpliPiSource.source (entity_after r) = "AmpliPi Stream 1000: Radio"
  /\ World.requests (world_after r) = [get_status].
Proof.
  intros r.
  pose proof (source_poll_attached
                (H := {| validators_url := fun _ => false |})
                (AmpliPiSource.__init__ (input_1 "playing") [] base_path)
                (device [Ok (snapshot "playing" [radio])] [])
                (input_1 "playing") (input_1 "playing")
                (snapshot "playing" [radio]) 1000
                eq_refl eq_refl eq_refl eq_refl)
    as (H1 & _ & _ & _ & _ & H6 & H7).
  repeat split; assumption.
Defined.

Lemma source_poll_detached_witness :
  let aux := Source.mk 0 "Turntable" (Some "local") None in
  let r := AmpliPiSource.async_update
             (H := {| validators_url := fun _ => false |})
             (AmpliPiSource.__init__ aux [] base_path,
              device [Ok (Status.mk [aux] [] [] [radio])] []) in
  outcome r = Ok tt
  /\ AmpliPiSource._current_stream (entity_after r) = None
  /\ AmpliPiSource.source (entity_after r) = "Turntable".
Proof.
  intros aux r.
  pose proof (source_poll_detached
                (H := {| validators_url := fun _ => false |})
                (AmpliPiSource.__init__ aux [] base_path)
                (device [Ok (Status.mk [aux] [] [] [radio])] [])
                aux aux (Status.mk [aux] [] [] [radio]) "local"
                eq_refl eq_refl eq_refl eq_refl eq_refl)
    as (H1 & _ & _ & H4 & H5 & _).
  repeat split; assumption.
Defined.

(** ** The source list of zones and streams *)




(** ** Supported features *)



(** ** More on polling zones, groups and streams *)

Section MorePolls.
Context `{Libraries}.

(** X15: a zone polled with a snapshot in which the zone has no source id,
    or a source id that no source of the snapshot has: the poll succeeds
    with two requests, the zone is idle and its [source] property is
    [None]. *)
Theorem zone_update_unassigned (e : AmpliPiZone.t) (w : World.t)
    (st st' : Status.t) (cached zone : Zone.t) :
  AmpliPiZone._is_group e = false ->
  AmpliPiZone._zone e = Some cached ->
  next_status w (Ok st) ->
  World.status_reply w (S (List.length (World.requests w))) = Ok st' ->
  next_filter (fun z => Zone.id z =? AmpliPiZone._id e) (Status.zones st)
  = Some zone ->
  match Zone.source_id zone with
  | None => True
  | Some source_id =>
      next_filter (fun src => source_id =? Source.id src) (Status.sources st)
      = None
  end ->
  let r := AmpliPiZone.async_update (e, w) in
  outcome r = Ok tt
  /\ AmpliPiZone._last_update_successful (entity_after r) = true
  /\ AmpliPiZone._zone (entity_after r) = Some zone
  /\ AmpliPiZone._current_source (entity_after r) = None
  /\ AmpliPiZone.state (entity_after r) = STATE_IDLE
  /\ AmpliPiZone.source (entity_after r) = None
  /\ AmpliPiZone._enabled (entity_after r) = negb (Zone.disabled zone)
  /\ World.requests (world_after r)
     = get_status :: get_status :: World.requests w.
Proof.
  unfold next_status.
  destruct e as [? ? g ? ? ? ? z gr ? ? ? ? ? ?], w; cbn.
  intros -> -> Hr Hr' Hz Hs.
  unfold AmpliPiZone.async_update, AmpliPiZone.fetch,
    AmpliPiZone._get_extra_attributes, AmpliPiZone._update_available,
    AmpliPiZone.sync_state.
  run. rewrite Hr. cbn. rewrite Hz. cbn. rewrite Hr'. cbn.
  destruct (Zone.source_id zone) as [sid|]; cbn.
  - rewrite Hs. cbn. repeat split.
  - repeat split.
Qed.

(** X16: once a status fetch succeeds, a stream entity that holds a stream
    record reports available, whether or not the snapshot still has the
    stream. *)
Theorem stream_available_once_fetched (e : AmpliPiStream.t) (w : World.t)
    (st : Status.t) (cached : Stream.t) :
  AmpliPiStream._stream e = Some cached ->
  next_status w (Ok st) ->
  AmpliPiStream.available
    (entity_after (AmpliPiStream.async_update (e, w))) = true.
Proof.
  unfold next_status.
  destruct e as [sc ? ? ? ? ? ? ? ? ? ? ?], w as [sr so ss rq lg]; cbn.
  intros -> Hr.
  unfold AmpliPiStream.async_update, AmpliPiStream.fetch,
    AmpliPiStream._get_extra_attributes, AmpliPiStream._update_available,
    AmpliPiStream.sync_state.
  run. rewrite Hr. cbn.
  destruct (next_filter _ (Status.streams st)) as [stream|]; cbn;
    [|reflexivity].
  destruct (find _ (Status.sources st)) as [src|]; cbn; [|reflexivity].
  destruct (Source.info src); reflexivity.
Qed.

Lemma flat_map_enabled_nil (zone_ids : list Z) (zones : list Zone.t) :
  flat_map (fun zone_id =>
              flat_map (fun state_zone =>
                          if AmpliPiZone.enabled_member zone_id state_zone
                          then [zone_id] else []) zones) zone_ids = []
  <-> existsb (fun zone_id =>
                 existsb (AmpliPiZone.enabled_member zone_id) zones) zone_ids
      = false.
Proof.
  induction zone_ids as [|zid l IH]; cbn; [tauto|].
  assert (I : flat_map (fun state_zone =>
                          if AmpliPiZone.enabled_member zid state_zone
                          then [zid] else []) zones = []
              <-> existsb (AmpliPiZone.enabled_member zid) zones = false).
  { clear IH. induction zones as [|z zs IHz]; cbn; [tauto|].
    destruct (AmpliPiZone.enabled_member zid z); cbn; [|exact IHz].
    split; discriminate. }
  rewrite orb_false_iff, <- IH, <- I.
  split.
  - intros Ha. now apply app_eq_nil in Ha.
  - intros [-> ->]. reflexivity.
Qed.

(** X17: for a group, the enabled member zones listed in the extra
    attributes and the stored availability agree when the two fetches
    see the same zones: the group is available iff the list is not
    empty, and each listed id is a member id of the cached group record
    and the id of a zone that is not disabled. *)
Theorem group_attributes_and_availability (e : AmpliPiZone.t) (w : World.t)
    (st st1 st2 : Status.t) (cached group : Group.t) :
  AmpliPiZone._is_group e = true ->
  AmpliPiZone._group e = Some cached ->
  next_status w (Ok st) ->
  World.status_reply w (S (List.length (World.requests w))) = Ok st1 ->
  World.status_reply w (S (S (List.length (World.requests w)))) = Ok st2 ->
  Status.zones st1 = Status.zones st2 ->
  next_filter (fun z => Group.id z =? AmpliPiZone._id e) (Status.groups st)
  = Some group ->
  let r := AmpliPiZone.async_update (e, w) in
  exists zone_ids,
    AmpliPiZone._extra_attributes (entity_after r) = amplipi_zones zone_ids
    /\ (AmpliPiZone.available (entity_after r) = true <-> zone_ids <> [])
    /\ (forall zone_id, In zone_id zone_ids ->
          In zone_id (Group.zones cached)
          /\ exists state_zone,
               In state_zone (Status.zones st1)
               /\ Zone.id state_zone = zone_id
               /\ Zone.disabled state_zone = false).
Proof.
  intros Hg Hc Hr Hr1 Hr2 Hz Hf.
  pose proof (group_available_after_update e w st st1 st2 cached group
                Hg Hc Hr Hr1 Hr2 Hf) as Ha.
  cbv zeta. rewrite Ha. clear Ha.
  set (ids := flat_map (fun zone_id =>
                flat_map (fun state_zone =>
                            if AmpliPiZone.enabled_member zone_id state_zone
                            then [zone_id] else []) (Status.zones st1))
              (Group.zones cached)).
  exists ids.
  split.
  { unfold next_status in Hr.
    destruct e as [? ? g ? ? ? ? z gr ? ? ? ? ? ?], w; cbn in *.
    subst g gr.
    unfold AmpliPiZone.async_update, AmpliPiZone.fetch,
      AmpliPiZone._get_extra_attributes, AmpliPiZone._update_available,
      AmpliPiZone.sync_state, stream_id_of_input.
    run. rewrite Hr. cbn. rewrite Hf. cbn. rewrite Hr1. cbn. rewrite Hr2. cbn.
    destruct (Status.sources st) as [|s0 rest] eqn:Es; cbn; [reflexivity|].
    match goal with
    | |- context [if ?c then Some s0 else ?f] =>
        destruct (if c then Some s0 else f) as [src|]; cbn; [|reflexivity]
    end.
    destruct (Source.input src) as [i|]; cbn; [|reflexivity].
    destruct (Py.contains "stream=" i && negb (Py.contains "stream=local" i));
      cbn.
    - destruct (Py.item (Py.split "=" i) 1) as [part|]; cbn; [|reflexivity].
      destruct (Py.int part); cbn; [|reflexivity].
      destruct (Source.info src); reflexivity.
    - destruct (Source.info src); reflexivity. }
  split.
  { rewrite <- Hz. pose proof (flat_map_enabled_nil (Group.zones cached)
                                 (Status.zones st1)) as Hn.
    fold ids in Hn.
    destruct (existsb _ (Group.zones cached)); split; intros Hx;
      try reflexivity; try discriminate.
    - intros He. apply Hn in He. discriminate.
    - exfalso. apply Hx. now apply Hn. }
  intros zone_id Hin. unfold ids in Hin.
  apply in_flat_map in Hin. destruct Hin as (zid & Hm & Hin).
  apply in_flat_map in Hin. destruct Hin as (sz & Hs & Hin).
  unfold AmpliPiZone.enabled_member in Hin.
  destruct (Zone.id sz =? zid) eqn:E1; [|contradiction].
  destruct (Zone.disabled sz) eqn:E2; [contradiction|].
  cbn in Hin. destruct Hin as [<-|[]].
  split; [exact Hm|]. exists sz. apply Z.eqb_eq in E1. auto.
Qed.
End MorePolls.

Lemma zone_update_unassigned_witness :
  let kitchen := Zone.mk 0 "Kitchen" (Some 5) (Some false) None false in
  let st := Status.mk [input_1 "playing"] [kitchen] [] [radio] in
  exists e,
    AmpliPiZone.__init__ (Some kitchen) None [] [] base_path = Ok e
    /\ let r := AmpliPiZone.async_update
                  (H := {| validators_url := fun _ => false |})
                  (e, device [Ok st; Ok st] []) in
       outcome r = Ok tt
       /\ AmpliPiZone.state (entity_after r) = STATE_IDLE
       /\ AmpliPiZone.source (entity_after r) = None.
Proof.
  intros kitchen st. eexists. split; [reflexivity|].
  match goal with
  | |- context [AmpliPiZone.async_update (?e, ?w)] =>
      pose proof (zone_update_unassigned
                    (H := {| validators_url := fun _ => false |})
                    e w st st kitchen kitchen
                    eq_refl eq_refl eq_refl eq_refl eq_refl eq_refl)
        as (H1 & _ & _ & _ & H5 & H6 & _)
  end.
  repeat split; assumption.
Defined.

Lemma stream_available_once_fetched_witness :
  AmpliPiStream.available
    (entity_after
       (AmpliPiStream.async_update
          (H := {| validators_url := fun _ => false |})
          (AmpliPiStream.__init__ radio [] base_path,
           device [Ok (Status.mk [] [] [] [])] []))) = true.
Proof.
  exact (stream_available_once_fetched
           (H := {| validators_url := fun _ => false |})
           (AmpliPiStream.__init__ radio [] base_path)
           (device [Ok (Status.mk [] [] [] [])] [])
           (Status.mk [] [] [] []) _ eq_refl eq_refl).
Defined.

Lemma group_attributes_and_availability_witness :
  let downstairs := Group.mk 100 "Downstairs" (Some 0) [0; 1] (Some false) None in
  let st := Status.mk [input_1 "playing"]
              [Zone.mk 0 "Kitchen" (Some 0) (Some false) None true;
               Zone.mk 1 "Patio" (Some 0) (Some false) None false]
              [downstairs] [radio] in
  exists e,
    AmpliPiZone.__init__ None (Some downstairs) [] [] base_path = Ok e
    /\ let r := AmpliPiZone.async_update
                  (H := {| validators_url := fun _ => false |})
                  (e, device [Ok st; Ok st; Ok st] []) in
       exists zone_ids,
         AmpliPiZone._extra_attributes (entity_after r) = amplipi_zones zone_ids
         /\ (AmpliPiZone.available (entity_after r) = true <-> zone_ids <> []).
Proof.
  intros downstairs st. eexists. split; [reflexivity|].
  match goal with
  | |- context [AmpliPiZone.async_update (?e, ?w)] =>
      pose proof (group_attributes_and_availability
                    (H := {| validators_url := fun _ => false |})
                    e w st st st downstairs downstairs
                    eq_refl eq_refl eq_refl eq_refl eq_refl eq_refl eq_refl)
        as (ids & H1 & H2 & _)
  end.
  exists ids. split; assumption.
Defined.

(** ** Failed polls, entity by entity *)

Section FailedPolls.
Context `{Libraries}.

(** X18: a poll whose status fetch raises, for each of the three entities:
    the poll itself does not raise, exactly one request was made, the only
    attribute that changes is the flag, which is cleared, and the state
    reads unknown. *)
Theorem failed_fetch_clears_only_the_flag (w : World.t) (ex : exn) :
  next_status w (Raise ex) ->
  (forall (e : AmpliPiSource.t) (src : Source.t),
     AmpliPiSource._source e = Some src ->
     let r := AmpliPiSource.async_update (e, w) in
     outcome r = Ok tt
     /\ entity_after r = e <| AmpliPiSource._last_update_successful := false |>
     /\ World.requests (world_after r) = get_status :: World.requests w
     /\ AmpliPiSource.state (entity_after r) = STATE_UNKNOWN)
  /\ (forall e : AmpliPiZone.t,
        let r := AmpliPiZone.async_update (e, w) in
        outcome r = Ok tt
        /\ entity_after r = e <| AmpliPiZone._last_update_successful := false |>
        /\ World.requests (world_after r) = get_status :: World.requests w
        /\ AmpliPiZone.state (entity_after r) = STATE_UNKNOWN)
  /\ (forall e : AmpliPiStream.t,
        let r := AmpliPiStream.async_update (e, w) in
        outcome r = Ok tt
        /\ entity_after r
           = e <| AmpliPiStream._last_update_successful := false |>
        /\ World.requests (world_after r) = get_status :: World.requests w
        /\ AmpliPiStream.state (entity_after r) = STATE_UNKNOWN).
Proof.
  intros Hr. split; [|split].
  - intros e src Hs. exact (source_update_failed_fetch e w src ex Hs Hr).
  - intros e. exact (zone_update_failed_fetch e w ex Hr).
  - intros e. exact (stream_update_failed_fetch e w ex Hr).
Qed.

(** X19: the same for a source entity when the snapshot has no source with
    its id, and for a zone or group entity when the snapshot has no zone
    or group with its id. *)
Theorem missing_record_clears_only_the_flag (w : World.t) (st : Status.t) :
  next_status w (Ok st) ->
  (forall (e : AmpliPiSource.t) (src : Source.t),
     AmpliPiSource._source e = Some src ->
     next_filter (fun z => Source.id z =? Source.id src) (Status.sources st)
     = None ->
     let r := AmpliPiSource.async_update (e, w) in
     outcome r = Ok tt
     /\ entity_after r = e <| AmpliPiSource._last_update_successful := false |>
     /\ World.requests (world_after r) = get_status :: World.requests w
     /\ AmpliPiSource.state (entity_after r) = STATE_UNKNOWN)
  /\ (forall e : AmpliPiZone.t,
        (if AmpliPiZone._is_group e
         then next_filter (fun z => Group.id z =? AmpliPiZone._id e)
                          (Status.groups st) = None
         else next_filter (fun z => Zone.id z =? AmpliPiZone._id e)
                          (Status.zones st) = None) ->
        let r := AmpliPiZone.async_update (e, w) in
        outcome r = Ok tt
        /\ entity_after r = e <| AmpliPiZone._last_update_successful := false |>
        /\ World.requests (world_after r) = get_status :: World.requests w
        /\ AmpliPiZone.state (entity_after r) = STATE_UNKNOWN).
Proof.
  intros Hr. split.
  - intros e src Hs Hn. exact (source_update_missing_source e w src st Hs Hr Hn).
  - intros e Hn. exact (zone_update_missing_record e w st Hr Hn).
Qed.
End FailedPolls.

Lemma failed_fetch_clears_only_the_flag_witness :
  let e := AmpliPiSource.__init__ (input_1 "playing") [radio] base_path in
  let r := AmpliPiSource.async_update
             (H := {| validators_url := fun _ => false |})
             (e <| AmpliPiSource._last_update_successful := true |>,
              device [Raise ClientError] []) in
  next_status (device [Raise ClientError] []) (Raise ClientError)
  /\ outcome r = Ok tt
  /\ AmpliPiSource.state (entity_after r) = STATE_UNKNOWN.
Proof.
  intros e r. split; [reflexivity|].
  pose proof (proj1 (failed_fetch_clears_only_the_flag
                       (H := {| validators_url := fun _ => false |})
                       (device [Raise ClientError] []) ClientError eq_refl)
                (e <| AmpliPiSource._last_update_successful := true |>)
                (input_1 "playing") eq_refl)
    as (H1 & _ & _ & H4).
  split; assumption.
Defined.

Lemma missing_record_clears_only_the_flag_witness :
  let kitchen := Zone.mk 0 "Kitchen" (Some 0) (Some false) None false in
  let st := Status.mk [input_1 "playing"] [] [] [radio] in
  next_status (device [Ok st] []) (Ok st)
  /\ exists e,
       AmpliPiZone.__init__ (Some kitchen) None [] [] base_path = Ok e
       /\ let r := AmpliPiZone.async_update
                     (H := {| validators_url := fun _ => false |})
                     (e, device [Ok st] []) in
          outcome r = Ok tt
          /\ AmpliPiZone.state (entity_after r) = STATE_UNKNOWN.
Proof.
  intros kitchen st. split; [reflexivity|].
  eexists. split; [reflexivity|].
  match goal with
  | |- context [AmpliPiZone.async_update (?e, ?w)] =>
      pose proof (proj2 (missing_record_clears_only_the_flag
                           (H := {| validators_url := fun _ => false |})
                           w st eq_refl) e eq_refl)
        as (H1 & _ & _ & H4)
  end.
  split; assumption.
Defined.

(** ** Commands *)

Section Commands.
Context `{Libraries}.

(** A source poll makes exactly one request, the status fetch. *)
Lemma source_update_one_request (e : AmpliPiSource.t) (w : World.t)
    (src : Source.t) :
  AmpliPiSource._source e = Some src ->
  World.requests (world_after (AmpliPiSource.async_update (e, w)))
  = get_status :: World.requests w.
Proof.
  destruct e, w as [sr so ss rq lg]; cbn. intros ->.
  unfold AmpliPiSource.async_update, AmpliPiSource.sync_state,
    stream_id_of_input.
  run. destruct (sr (Datatypes.length rq)) as [st|ex]; cbn; [|reflexivity].
  destruct (next_filter _ (Status.sources st)) as [source|]; cbn;
    [|reflexivity].
  destruct (Source.input source) as [i|]; cbn; [|reflexivity].
  destruct (Py.contains "stream=" i && negb (Py.contains "stream=local" i));
    cbn.
  - destruct (Py.item (Py.split "=" i) 1) as [part|]; cbn; [|reflexivity].
    destruct (Py.int part); cbn; [|reflexivity].
    destruct (Source.info source); reflexivity.
  - destruct (Source.info source); reflexivity.
Qed.


Lemma source_update_source_run (e : AmpliPiSource.t) (w : World.t)
    (src : Source.t) (input : string) :
  AmpliPiSource._source e = Some src ->
  AmpliPiSource._update_source input (e, w)
  = match World.set_source_reply w (List.length (World.requests w)) with
    | Ok _ =>
        AmpliPiSource.async_update
          (e, w <| World.requests ::=
                     cons (set_source (Source.id src) input) |>)
    | Raise ex =>
        (Raise ex,
         (e, w <| World.requests ::=
                    cons (set_source (Source.id src) input) |>))
    end.
Proof.
  intros Hs.
  unfold AmpliPiSource._update_source, bind, self, attr, ret,
    await_set_source, call. cbn [fst snd]. rewrite Hs. cbn [fst snd].
  destruct (World.set_source_reply w _); reflexivity.
Qed.

(** X20: on a source entity, selecting the source's own name sends the
    input ["local"], and selecting ["None"] or turning the entity off
    sends the input ["None"], each to the entity's source.  When the
    device accepts, a poll follows: two requests in all.  When it refuses,
    the exception leaves the call, the entity is unchanged and no poll is
    made. *)
Theorem source_select_none_or_own_name (e : AmpliPiSource.t) (w : World.t)
    (src : Source.t) :
  AmpliPiSource._source e = Some src ->
  let sent input r :=
    match World.set_source_reply w (List.length (World.requests w)) with
    | Ok _ =>
        World.requests (world_after r)
        = get_status :: set_source (Source.id src) input :: World.requests w
    | Raise ex =>
        outcome r = Raise ex
        /\ entity_after r = e
        /\ World.requests (world_after r)
           = set_source (Source.id src) input :: World.requests w
    end in
  sent "local" (AmpliPiSource.async_select_source (Source.name src) (e, w))
  /\ (Source.name src <> "None" ->
      sent "None" (AmpliPiSource.async_select_source "None" (e, w)))
  /\ sent "None" (AmpliPiSource.async_turn_off (e, w)).
Proof.
  intros Hs sent.
  assert (G : forall input w0,
             World.requests w0 = World.requests w ->
             World.set_source_reply w0 = World.set_source_reply w ->
             sent input (AmpliPiSource._update_source input (e, w0))).
  { intros input w0 Hrq Hrp.
    pose proof (source_update_source_run e w0 src input Hs) as E.
    unfold sent. rewrite E, Hrq, Hrp.
    destruct (World.set_source_reply w (Datatypes.length (World.requests w)))
      as [u|ex].
    - rewrite source_update_one_request with (src := src) by exact Hs.
      destruct w0; cbn in *. now rewrite Hrq.
    - unfold outcome, entity_after, world_after. cbn [fst snd].
      destruct w0; cbn in *. rewrite Hrq. repeat split. }
  split; [|split].
  - unfold AmpliPiSource.async_select_source. unfold bind at 1.
    unfold self at 1. cbn [fst snd]. rewrite Hs, String.eqb_refl.
    now apply G.
  - intros Hn. unfold AmpliPiSource.async_select_source. unfold bind at 1.
    unfold self at 1. cbn [fst snd]. rewrite Hs.
    apply String.eqb_neq in Hn. rewrite Hn. cbn [String.eqb].
    change (("None" =? "None")%string) with true. cbv iota. now apply G.
  - unfold AmpliPiSource.async_turn_off. unfold bind at 1. unfold self at 1.
    cbn [fst snd]. rewrite Hs. unfold bind at 1. unfold logger at 1.
    cbn [fst snd]. apply G; destruct w; reflexivity.
Qed.
End Commands.

Lemma source_select_none_or_own_name_witness :
  let e := AmpliPiSource.__init__ (input_1 "playing") [radio] base_path in
  World.requests
    (world_after (AmpliPiSource.async_select_source
                    (H := {| validators_url := fun _ => false |})
                    "Input 1" (e, device [] [])))
  = [get_status; set_source 0 "local"].
Proof.
  intros e.
  exact (proj1 (source_select_none_or_own_name
                  (H := {| validators_url := fun _ => false |})
                  e (device [] []) (input_1 "playing") eq_refl)).
Defined.

Section StreamCommands.
Context `{Libraries}.

End StreamCommands.

(** ** Selecting a stream that the entity offers *)

(** The decimal text of an id from 996 to 1999: digits only, three of them
    after a 9 or four after a 1. *)
Lemma stream_id_text (id : Z) :
  996 <= id <= 1999 ->
  exists c t,
    Py.str id = String c t
    /\ forallb Py.is_digit (list_ascii_of_string (Py.str id)) = true
    /\ ((c = "1"%char /\ String.length (Py.str id) = 4%nat)
        \/ (c = "9"%char /\ String.length (Py.str id) = 3%nat)).
Proof.
  intros Hr.
  set (check := fun id : Z =>
         match Py.str id with
         | String c t =>
             forallb Py.is_digit (list_ascii_of_string (Py.str id))
             && ((Ascii.eqb c "1" && (String.length (Py.str id) =? 4)%nat)
                 || (Ascii.eqb c "9" && (String.length (Py.str id) =? 3)%nat))
         | EmptyString => false
         end).
  assert (All : forallb check (map (fun k => 996 + Z.of_nat k) (seq 0 1004))
                = true) by (vm_compute; reflexivity).
  assert (Hc : check id = true).
  { rewrite forallb_forall in All. apply All. apply in_map_iff.
    exists (Z.to_nat (id - 996)). split; [lia|]. apply in_seq. lia. }
  unfold check in Hc. destruct (Py.str id) as [|c t] eqn:E; [discriminate|].
  exists c, t. split; [reflexivity|].
  apply andb_true_iff in Hc. destruct Hc as [Hd Hk]. split; [exact Hd|].
  apply orb_true_iff in Hk.
  destruct Hk as [Hk|Hk]; apply andb_true_iff in Hk; destruct Hk as [Hc Hl];
    apply Ascii.eqb_eq in Hc; apply Nat.eqb_eq in Hl; [left | right]; auto.
Qed.

Lemma str_inj (a b : Z) : Py.str a = Py.str b -> a = b.
Proof.
  intros Heq. pose proof (int_str a) as Ha. rewrite Heq, int_str in Ha.
  now injection Ha.
Qed.

Lemma findall_digit_app (a b : string) :
  Py.findall_digit (a ++ b)
  = List.app (Py.findall_digit a) (Py.findall_digit b).
Proof.
  induction a as [|c a IH]; [reflexivity|]. cbn.
  destruct (Py.is_digit c); cbn; now rewrite IH.
Qed.

Lemma join_app (l1 l2 : list string) :
  Forall (fun x => exists c, x = String c "") l1 ->
  Py.join (List.app l1 l2) = Py.join l1 ++ Py.join l2.
Proof.
  induction 1 as [|x l1 [c ->] _ IH]; [reflexivity|].
  cbn [List.app]. rewrite !join_cons, IH. reflexivity.
Qed.

Lemma findall_digit_singletons (s : string) :
  Forall (fun x => exists c, x = String c "") (Py.findall_digit s).
Proof.
  induction s as [|c s IH]; cbn; [constructor|].
  destruct (Py.is_digit c); [constructor; eauto | exact IH].
Qed.

Lemma join_findall_digits_only (s : string) :
  forallb Py.is_digit (list_ascii_of_string s) = true ->
  Py.join (Py.findall_digit s) = s.
Proof.
  induction s as [|c s IH]; cbn; [reflexivity|].
  intros Hd. apply andb_true_iff in Hd. destruct Hd as [-> Hs].
  now rewrite join_cons, IH.
Qed.

Lemma take_app_length (s t : string) :
  Py.take (String.length s) (s ++ t) = s.
Proof. induction s; cbn; [now destruct t | congruence]. Qed.

(** The id text is recovered from a processed name when the id is between
    996 and 1999. *)
Lemma process_stream_id_of_processed_name (id : Z) (raw : string)
    (st : AmpliPiSource.t * World.t) :
  996 <= id <= 1999 ->
  AmpliPiSource.process_stream_id
    ("AmpliPi Stream " ++ Py.str id ++ ": " ++ raw) st
  = (Ok (Some (Py.str id)), st).
Proof.
  intros Hr. destruct (stream_id_text id Hr) as (c & t & Es & Hd & Hk).
  assert (Hj : Py.join (Py.findall_digit
                          ("AmpliPi Stream " ++ Py.str id ++ ": " ++ raw))
               = Py.str id ++ Py.join (Py.findall_digit raw)).
  { rewrite findall_digit_app.
    change (Py.findall_digit "AmpliPi Stream ") with (@nil string).
    cbn [List.app]. rewrite findall_digit_app.
    rewrite join_app by apply findall_digit_singletons.
    rewrite (join_findall_digits_only _ Hd). reflexivity. }
  unfold AmpliPiSource.process_stream_id. rewrite Hj.
  unfold bind, lift, ret.
  assert (Hc : Py.is_digit c = true).
  { rewrite Es in Hd. cbn in Hd. now apply andb_true_iff in Hd. }
  rewrite Es at 1. cbn [String.append Py.first].
  rewrite (int_of_digit c Hc).
  destruct Hk as [[-> Hl]|[-> Hl]].
  - change (Py.digit_value "1" =? 1) with true. cbv iota.
    rewrite <- Hl. now rewrite take_app_length.
  - change (Py.digit_value "9" =? 1) with false.
    change (Py.digit_value "9" =? 9) with true. cbv iota.
    rewrite <- Hl. now rewrite take_app_length.
Qed.


Section SelectOffered.
Context `{Libraries}.


Lemma find_stream_of_processed_name (z : Stream.t)
    (streams : list Stream.t) (e : AmpliPiSource.t) (w : World.t) :
  processed_stream z -> Forall processed_stream streams ->
  AmpliPiSource.find_stream (Stream.name z) streams (e, w)
  = (Ok (find (fun y => Stream.id y =? Stream.id z) streams), (e, w)).
Proof.
  intros [Hz [rawz Ez]] Hall.
  induction Hall as [|y l [Hy [rawy Ey]] _ IH]; [reflexivity|].
  cbn [AmpliPiSource.find_stream find]. unfold bind.
  rewrite Ey at 1.
  rewrite (process_stream_id_of_processed_name _ rawy (e, w) Hy).
  rewrite Ez at 1.
  rewrite (process_stream_id_of_processed_name _ rawz (e, w) Hz).
  cbn [Py.eq_opt_str].
  destruct (Z.eqb_spec (Stream.id y) (Stream.id z)) as [Heq|Hne].
  - rewrite Heq, String.eqb_refl. reflexivity.
  - destruct (String.eqb_spec (Py.str (Stream.id y)) (Py.str (Stream.id z)))
      as [Hs|_]; [apply str_inj in Hs; contradiction|].
    exact IH.
Qed.

(** X22: a source entity asked for the name of a stream of its cache,
    where every cached stream has the normalized name and an id from 996
    to 1999: the codec finds the stream and the entity sends
    ["stream={id}"] for its source; a poll follows when the device
    accepts, and the entity is unchanged when it refuses. *)
Theorem select_offered_stream (e : AmpliPiSource.t) (w : World.t)
    (src : Source.t) (z : Stream.t) :
  AmpliPiSource._source e = Some src ->
  Source.name src <> Stream.name z ->
  In z (AmpliPiSource._streams e) ->
  Forall (fun y =>
            996 <= Stream.id y <= 1999
            /\ exists raw,
                 Stream.name y
                 = "AmpliPi Stream " ++ Py.str (Stream.id y) ++ ": " ++ raw)
         (AmpliPiSource._streams e) ->
  let r := AmpliPiSource.async_select_source (Stream.name z) (e, w) in
  let sent :=
    set_source (Source.id src) ("stream=" ++ Py.str (Stream.id z)) in
  match World.set_source_reply w (List.length (World.requests w)) with
  | Ok _ =>
      World.requests (world_after r) = get_status :: sent :: World.requests w
  | Raise ex =>
      outcome r = Raise ex
      /\ entity_after r = e
      /\ World.requests (world_after r) = sent :: World.requests w
  end.
Proof.
  intros Hs Hown Hin Hall r sent.
  assert (Hz : processed_stream z)
    by exact (proj1 (Forall_forall _ _) Hall z Hin).
  assert (Hf : exists y, find (fun y => Stream.id y =? Stream.id z)
                              (AmpliPiSource._streams e) = Some y
                         /\ Stream.id y = Stream.id z).
  { destruct (find (fun y => Stream.id y =? Stream.id z)
                   (AmpliPiSource._streams e)) as [y|] eqn:E.
    - exists y. split; [reflexivity|]. apply find_some in E.
      now apply Z.eqb_eq.
    - exfalso. apply (find_none _ _ E) in Hin. now rewrite Z.eqb_refl in Hin. }
  destruct Hf as (y & Hf & Hy).
  assert (Hnone : (Stream.name z =? "None")%string = false).
  { destruct Hz as [_ [raw ->]]. reflexivity. }
  assert (E : r = AmpliPiSource._update_source
                    ("stream=" ++ Py.str (Stream.id z)) (e, w)).
  { unfold r, AmpliPiSource.async_select_source. unfold bind at 1.
    unfold self at 1. cbn [fst snd]. rewrite Hs.
    apply String.eqb_neq in Hown. rewrite Hown, Hnone.
    unfold bind at 1.
    rewrite (find_stream_of_processed_name z _ e w Hz Hall), Hf, Hy.
    reflexivity. }
  rewrite E, (source_update_source_run e w src _ Hs).
  destruct (World.set_source_reply w (Datatypes.length (World.requests w)))
    as [u|ex].
  - rewrite source_update_one_request with (src := src) by exact Hs.
    destruct w; reflexivity.
  - unfold outcome, entity_after, world_after. cbn [fst snd].
    repeat split.
Qed.
End SelectOffered.

Lemma select_offered_stream_witness :
  let e := AmpliPiSource.__init__ (input_1 "playing") [radio] base_path in
  World.requests
    (world_after (AmpliPiSource.async_select_source
                    (H := {| validators_url := fun _ => false |})
                    "AmpliPi Stream 1000: Radio" (e, device [] [])))
  = [get_status; set_source 0 "stream=1000"].
Proof.
  intros e.
  assert (Hn : Source.name (input_1 "playing")
               <> Stream.name (process_stream_name radio)) by discriminate.
  assert (Hin : In (process_stream_name radio) (AmpliPiSource._streams e))
    by (left; reflexivity).
  assert (Hall : Forall (fun y =>
                   996 <= Stream.id y <= 1999
                   /\ exists raw,
                        Stream.name y
                        = "AmpliPi Stream " ++ Py.str (Stream.id y) ++ ": " ++ raw)
                 (AmpliPiSource._streams e)).
  { constructor; [|constructor]. split; [cbn; lia|].
    exists "Radio". reflexivity. }
  exact (select_offered_stream
           (H := {| validators_url := fun _ => false |})
           e (device [] []) (input_1 "playing") (process_stream_name radio)
           eq_refl Hn Hin Hall).
Defined.
